(** * Paper2Gif: the revision-walking render pipeline of [main.py]

    A shallow embedding of [Renderer] (clamped dimensions, row-major page
    layout, rendering of one document) and of [GitHelper] (the run loop over
    the revisions of a repository), followed by the properties of the
    specification that concern them.

    Conventions of the embedding.
    - Python integers are [Z].  The quotient [a / b] of two integers is a
      float: the double nearest to the exact quotient, ties to the even
      mantissa, [ZeroDivisionError] for a zero divisor and [OverflowError]
      when that double would not be finite.  It is embedded as it is
      computed, in integer arithmetic, as a mantissa and an exponent;
      [math.floor] of it is an integer again.
    - [str] and [bytes] values are [string]; [None]-or-value is [option].
    - Exceptions are values of [exception]; code that can raise returns
      [exception + A], and code that also acts on the outside world runs in
      the monad [M] below, whose state is the outside world together with
      the log of what the program printed and of the library calls it made.
    - The libraries the program drives (git through [subprocess], pdf2image,
      PIL's file output, pydriller) are parameters of the development. *)

From Stdlib Require Import ZArith List String Ascii Bool Lia.
From Stdlib Require Import DecimalString.
From Stdlib Require DecimalZ.
Import ListNotations.

Local Open Scope string_scope.
Local Open Scope Z_scope.

Set Implicit Arguments.

(** ** Exceptions and fallible pure code *)

Inductive exception : Type :=
| PDFPageCountError            (* pdf2image.exceptions.PDFPageCountError *)
| ZeroDivisionError
| OverflowError
| ValueError
| TypeError
| IndexError
| OSError                      (* what subprocess.Popen raises when it cannot spawn *)
| LibraryError (name : string) (* any other exception raised inside a library *).

Definition exception_eqb (a b : exception) : bool :=
  match a, b with
  | PDFPageCountError, PDFPageCountError
  | ZeroDivisionError, ZeroDivisionError
  | OverflowError, OverflowError
  | ValueError, ValueError
  | TypeError, TypeError
  | IndexError, IndexError
  | OSError, OSError => true
  | LibraryError x, LibraryError y => String.eqb x y
  | _, _ => false
  end.

Definition result (A : Type) : Type := (exception + A)%type.

Definition rbind {A B : Type} (m : result A) (k : A -> result B) : result B :=
  match m with
  | inl e => inl e
  | inr a => k a
  end.

Declare Scope result_scope.
Delimit Scope result_scope with result.
Notation "x <-- m ;;; k" := (rbind m (fun x => k))
  (at level 100, m at next level, right associativity) : result_scope.

(** *** Floats

    A finite double is a pair [(m, e)] that stands for [m * 2^e], with
    [|m| <= 2^53] and [e >= -1074]. *)

(** The quotient [n / d] of two positive integers, counted in units of
    [2^e]: a numerator and a denominator. *)
Definition scaled (n d e : Z) : Z * Z :=
  if 0 <=? e then (n, d * 2 ^ e) else (n * 2 ^ (- e), d).

(** The integer nearest to [N / D], the even one of two that are as near. *)
Definition round_half_even (N D : Z) : Z :=
  let m := N / D in
  match 2 * (N mod D) ?= D with
  | Lt => m
  | Eq => if Z.even m then m else m + 1
  | Gt => m + 1
  end.

(** The exponent of the last place of the double nearest to [n / d], for
    positive [n] and [d]: the one that leaves 53 bits to the mantissa, and
    not less than that of the subnormal doubles. *)
Definition ulp_exponent (n d : Z) : Z :=
  let e0 := Z.log2 n - Z.log2 d - 52 in
  let '(N, D) := scaled n d e0 in
  Z.max (-1074) (if N / D <? 2 ^ 52 then e0 - 1 else e0).

(** [a / b] for integers [a], [b]: the double nearest to the quotient. *)
Definition truediv (a b : Z) : result (Z * Z) :=
  if b =? 0 then inl ZeroDivisionError
  else if a =? 0 then inr (0, 0)
  else
    let e := ulp_exponent (Z.abs a) (Z.abs b) in
    let '(N, D) := scaled (Z.abs a) (Z.abs b) e in
    let m := round_half_even N D in
    if ((0 <=? e) && (2 ^ 1024 <=? m * 2 ^ e))%bool then inl OverflowError
    else inr (Z.sgn a * Z.sgn b * m, e).

(** [math.floor(x)] for a finite double. *)
Definition math_floor (x : Z * Z) : Z :=
  let '(m, e) := x in
  if 0 <=? e then m * 2 ^ e else m / 2 ^ (- e).

(** [math.floor(a / b)] for integers [a], [b]. *)
Definition floor_truediv (a b : Z) : result Z :=
  rbind (truediv a b) (fun x => inr (math_floor x)).

(** [a % b] for integers [a], [b]: the remainder has the sign of [b], as
    [Z.modulo] has. *)
Definition py_mod (a b : Z) : result Z :=
  if b =? 0 then inl ZeroDivisionError else inr (a mod b).

(** [for i in range(n): acc = body(i, acc)], stopping at the first exception. *)
Fixpoint for_each {A : Type} (idxs : list nat) (body : nat -> A -> result A)
    (acc : A) : result A :=
  match idxs with
  | [] => inr acc
  | i :: rest => rbind (body i acc) (for_each rest body)
  end.

Definition for_range {A : Type} (n : nat) (body : nat -> A -> result A)
    (acc : A) : result A :=
  for_each (seq 0 n) body acc.

(** [xs[i]] for a list and an index inside [range(len(xs))]. *)
Definition list_get {A : Type} (xs : list A) (i : nat) : result A :=
  match nth_error xs i with
  | Some x => inr x
  | None => inl IndexError
  end.

(** ** Renderer *)

Record Renderer : Type := mkRenderer {
  img_size : Z * Z;
  page_size : Z * Z;
  first_page : option Z;
  last_page : option Z
}.

(** [Renderer.__init__]. *)
Definition Renderer_init (img_size page_size : Z * Z)
    (first_page last_page : option Z) : Renderer :=
  {| img_size := (Z.max 100 (fst img_size), Z.max 100 (snd img_size));
     page_size := (Z.max 10 (fst page_size), Z.max 10 (snd page_size));
     first_page := first_page;
     last_page := last_page |}.

Section Pages.

(** A rasterized page (a PIL image produced by pdf2image). *)
Variable Page : Type.

(** A PIL image built by this program: its mode, size and background as
    given to [Image.new], and the pages pasted on it so far, oldest first. *)
Record Canvas : Type := mkCanvas {
  mode : string;
  size : Z * Z;
  background : Z * Z * Z * Z;
  pastes : list (Page * (Z * Z))
}.

(** [canvas.paste(page, box)]. *)
Definition paste (canvas : Canvas) (page : Page) (box : Z * Z) : Canvas :=
  {| mode := mode canvas;
     size := size canvas;
     background := background canvas;
     pastes := pastes canvas ++ [(page, box)] |}.

(** The two locals computed before the loop of [_layout_pages]. *)
Definition pages_per_row (r : Renderer) : result Z :=
  let '(imgw, _) := img_size r in
  let '(pw, _) := page_size r in
  floor_truediv imgw pw.

Definition margin (r : Renderer) : result Z :=
  let '(imgw, _) := img_size r in
  let '(pw, _) := page_size r in
  (pages_per_row <-- floor_truediv imgw pw ;;;
   floor_truediv (imgw - pages_per_row * pw) 2)%result.

(** The box handed to [canvas.paste] for index [i]: the modulo is evaluated
    first, then the quotient. *)
Definition paste_position (pw ph pages_per_row margin : Z) (i : nat)
    : result (Z * Z) :=
  (m <-- py_mod (Z.of_nat i) pages_per_row ;;;
   q <-- floor_truediv (Z.of_nat i) pages_per_row ;;;
   inr (margin + pw * m, ph * q))%result.

(** [Renderer._layout_pages]. *)
Definition _layout_pages (r : Renderer) (canvas : Canvas) (pages : list Page)
    : result Canvas :=
  let '(imgw, imgh) := img_size r in
  let '(pw, ph) := page_size r in
  (pages_per_row <-- floor_truediv imgw pw ;;;
   margin <-- floor_truediv (imgw - pages_per_row * pw) 2 ;;;
   for_range (List.length pages)
     (fun i canvas =>
        box <-- paste_position pw ph pages_per_row margin i ;;;
        page <-- list_get pages i ;;;
        inr (paste canvas page box))
     canvas)%result.

(** [Renderer._create_canvas]. *)
Definition _create_canvas (r : Renderer) : Canvas :=
  {| mode := "RGBA";
     size := img_size r;
     background := (255, 255, 255, 255);
     pastes := [] |}.

(** *** The layout as the specification words it *)

Definition spec_pagesPerRow (canvasWidth pageWidth : Z) : Z :=
  canvasWidth / pageWidth.

Definition spec_margin (canvasWidth pageWidth : Z) : Z :=
  (canvasWidth - spec_pagesPerRow canvasWidth pageWidth * pageWidth) / 2.

Definition spec_x (canvasWidth pageWidth : Z) (i : nat) : Z :=
  spec_margin canvasWidth pageWidth
  + pageWidth * (Z.of_nat i mod spec_pagesPerRow canvasWidth pageWidth).

Definition spec_y (canvasWidth pageWidth pageHeight : Z) (i : nat) : Z :=
  pageHeight * (Z.of_nat i / spec_pagesPerRow canvasWidth pageWidth).

Definition spec_placements (canvasWidth pageWidth pageHeight : Z)
    (pages : list Page) : list (Page * (Z * Z)) :=
  map (fun ip : nat * Page =>
         (snd ip, (spec_x canvasWidth pageWidth (fst ip),
                   spec_y canvasWidth pageWidth pageHeight (fst ip))))
      (combine (seq 0 (List.length pages)) pages).

End Pages.

Arguments paste {Page} canvas page box.
Arguments _layout_pages {Page} r canvas pages.
Arguments _create_canvas {Page} r.
Arguments spec_placements {Page} canvasWidth pageWidth pageHeight pages.

(** ** Strings of the standard library the program uses *)

(** [str(n)] for an integer. *)
Definition str (n : Z) : string := NilZero.string_of_int (Z.to_int n).

(** [s.split(" ")]: cut at every single space, empty pieces kept. *)
Fixpoint split_space (s : string) : list string :=
  match s with
  | EmptyString => [EmptyString]
  | String c s' =>
      if Ascii.eqb c " "%char then EmptyString :: split_space s'
      else match split_space s' with
           | w :: ws => String c w :: ws
           | [] => [String c EmptyString]
           end
  end.

Definition starts_with_sep (s : string) : bool :=
  match s with
  | String c _ => Ascii.eqb c "/"%char
  | EmptyString => false
  end.

Fixpoint ends_with_sep (s : string) : bool :=
  match s with
  | EmptyString => false
  | String c EmptyString => Ascii.eqb c "/"%char
  | String _ s' => ends_with_sep s'
  end.

(** [os.path.join(a, p)] on a POSIX system, for a string [a] and a second
    argument that is a string or [None]: [None] is no path, and the call
    raises [TypeError]. *)
Definition os_path_join (a : string) (p : option string) : result string :=
  match p with
  | None => inl TypeError
  | Some b =>
      if starts_with_sep b then inr b
      else if (String.eqb a "" || ends_with_sep a)%bool then inr (a ++ b)
      else inr (a ++ "/" ++ b)
  end.

(** ** The outside world *)

(** What [print] is given: a [str] or a [bytes] object. *)
Inductive printed : Type :=
| PyStr (s : string)
| PyBytes (b : string).

(** What [Popen(...).communicate()] leaves behind. *)
Record process : Type := mkProcess {
  returncode : Z;
  stdout : string;
  stderr : string
}.

Section Pipeline.

Variable Page : Type.
Variable World : Type.

(** The log: every line printed and every library call made, oldest first. *)
Inductive event : Type :=
| EvPrint (v : printed)
| EvTraverse (repository : string)
| EvPopen (args : list string) (cwd : string)
| EvConvert (document : string) (size : Z * Z) (first last : option Z)
| EvSavePng (path : string) (canvas : Canvas Page)
| EvSaveGif (path : string) (first : Canvas Page)
    (append_images : list (Canvas Page)) (duration loop : Z).

(** The libraries: each call reads and changes the world and returns or
    raises. *)
Record Library : Type := mkLibrary {
  (* [c.hash for c in RepositoryMining(path).traverse_commits()] *)
  traverse_commits : string -> World -> result (list string) * World;
  (* [Popen(args, stdout=PIPE, stderr=PIPE, cwd=cwd)] then [communicate()] *)
  Popen_communicate : list string -> string -> World -> result process * World;
  (* [convert_from_path(document, size=, first_page=, last_page=)] *)
  convert_from_path :
    string -> Z * Z -> option Z -> option Z -> World -> result (list Page) * World;
  (* [canvas.save(path)] *)
  Image_save : string -> Canvas Page -> World -> result unit * World;
  (* [img.save(fp=, format='GIF', append_images=, save_all=True, duration=, loop=)] *)
  Image_save_gif :
    string -> Canvas Page -> list (Canvas Page) -> Z -> Z -> World
    -> result unit * World
}.

Variable lib : Library.

Record state : Type := mkState {
  world : World;
  log : list event
}.

Definition M (A : Type) : Type := state -> result A * state.

Definition ret {A : Type} (a : A) : M A := fun st => (inr a, st).

Definition raise {A : Type} (e : exception) : M A := fun st => (inl e, st).

Definition bind {A B : Type} (m : M A) (k : A -> M B) : M B :=
  fun st =>
    match m st with
    | (inl e, st') => (inl e, st')
    | (inr a, st') => k a st'
    end.

Definition lift {A : Type} (r : result A) : M A := fun st => (r, st).

(** [try: body / except exn: handler]: the handler runs in the state the body
    left when it raised; any other exception goes on. *)
Definition try_except {A : Type} (body : M A) (exn : exception) (handler : M A)
    : M A :=
  fun st =>
    match body st with
    | (inl e, st') =>
        if exception_eqb e exn then handler st' else (inl e, st')
    | (inr a, st') => (inr a, st')
    end.

Definition print (v : printed) : M unit :=
  fun st => (inr tt, {| world := world st; log := log st ++ [EvPrint v] |}).

(** A library call: logged when made, whether it returns or raises. *)
Definition call {A : Type} (ev : event) (f : World -> result A * World) : M A :=
  fun st =>
    let (r, w) := f (world st) in
    (r, {| world := w; log := log st ++ [ev] |}).

Declare Scope io_scope.
Delimit Scope io_scope with io.
Notation "x <- m ;; k" := (bind m (fun x => k))
  (at level 100, m at next level, right associativity) : io_scope.
Notation "m ;; k" := (bind m (fun _ => k))
  (at level 100, right associativity) : io_scope.
Local Open Scope io_scope.

(** [Renderer.render]. *)
Definition render (r : Renderer) (document prefix : string)
    : M (string * Canvas Page) :=
  let canvas := _create_canvas r in
  pages <- call (EvConvert document (page_size r) (first_page r) (last_page r))
             (convert_from_path lib document (page_size r)
                (first_page r) (last_page r)) ;;
  canvas <- lift (_layout_pages r canvas pages) ;;
  let path := prefix ++ "_digest.png" in
  call (EvSavePng path canvas) (Image_save lib path canvas) ;;
  print (PyStr ("saved image as " ++ path)) ;;
  ret (path, canvas).

(** ** GitHelper *)

Record GitHelper : Type := mkGitHelper {
  renderer : Renderer;
  src_repository : string;
  subdirectory : option string;
  outpath : string;
  cwd : string;
  compilation_command : string
}.

(** [GitHelper.__init__]. *)
Definition GitHelper_init (renderer : Renderer) (src_repository : string)
    (compilation_command outpath : string) (subdirectory : option string)
    : result GitHelper :=
  (cwd <-- os_path_join src_repository subdirectory ;;;
   inr {| renderer := renderer;
          src_repository := src_repository;
          subdirectory := subdirectory;
          outpath := outpath;
          cwd := cwd;
          compilation_command := compilation_command |})%result.

(** [GitHelper.hashes]. *)
Definition hashes (g : GitHelper) : M (list string) :=
  call (EvTraverse (src_repository g)) (traverse_commits lib (src_repository g)).

(** [GitHelper.checkout]. *)
Definition checkout (g : GitHelper) (hash : string) : M unit :=
  print (PyStr ("checking out hash " ++ hash)) ;;
  p <- call (EvPopen ["git"; "checkout"; "-f"; hash] (src_repository g))
         (Popen_communicate lib ["git"; "checkout"; "-f"; hash]
            (src_repository g)) ;;
  print (PyBytes (stderr p)).

(** [GitHelper.compile_pdf]. *)
Definition compile_pdf (g : GitHelper) : M unit :=
  print (PyStr ("compiling pdf using command " ++ compilation_command g)) ;;
  p <- call (EvPopen (split_space (compilation_command g)) (cwd g))
         (Popen_communicate lib (split_space (compilation_command g)) (cwd g)) ;;
  ret tt.

(** [while len(hashes) > 0 and hashes[0] != start_hash: hashes.pop(0)]. *)
Fixpoint drop_until (start_hash : string) (hashes : list string) : list string :=
  match hashes with
  | [] => []
  | h :: rest =>
      if String.eqb h start_hash then hashes else drop_until start_hash rest
  end.

(** [hash == end_hash], where [end_hash] may be [None]. *)
Definition is_end (hash : string) (end_hash : option string) : bool :=
  match end_hash with
  | Some e => String.eqb hash e
  | None => false
  end.

Definition skip_message (hash : string) : string :=
  "could not open the PDF for hash " ++ hash
  ++ ". Maybe this revision does not compile properly? Skipping this revision...".

(** The [try] block of the loop with its [except] clause, for the popped
    [hash]: the frames after it. *)
Definition attempt (g : GitHelper) (hash : string) (prefix : Z)
    (frames : list (Canvas Page)) : M (list (Canvas Page)) :=
  try_except
    (checkout g hash ;;
     compile_pdf g ;;
     path_img <- render (renderer g) (outpath g) (str prefix) ;;
     ret (frames ++ [snd path_img])%list)
    PDFPageCountError
    (print (PyStr (skip_message hash)) ;;
     ret frames).

(** [while not stop: ...]; returns the locals [hashes], [frames] and [prefix]
    as the loop leaves them. *)
Fixpoint while_not_stop (g : GitHelper) (end_hash : option string)
    (stop : bool) (hashes : list string) (frames : list (Canvas Page))
    (prefix : Z) : M (list string * list (Canvas Page) * Z) :=
  if stop then ret (hashes, frames, prefix)
  else
    match hashes with
    | [] => raise IndexError   (* [hashes.pop(0)] on an empty list *)
    | hash :: hashes' =>
        frames' <- attempt g hash prefix frames ;;
        while_not_stop g end_hash
          (is_end hash end_hash || (Z.of_nat (List.length hashes') =? 0))%bool
          hashes' frames' (prefix + 1)
    end.

(** [GitHelper.run] up to the end of its loop. *)
Definition collect_frames (g : GitHelper) (start_hash end_hash : option string)
    : M (list string * list (Canvas Page) * Z) :=
  let frames := [] in
  let prefix := 1 in
  hashes <- hashes g ;;
  let hashes :=
    match start_hash with
    | Some s => drop_until s hashes
    | None => hashes
    end in
  let stop := Z.of_nat (List.length hashes) =? 0 in
  while_not_stop g end_hash stop hashes frames prefix.

(** The last statement of [GitHelper.run]. *)
Definition encode (gif_path : option string) (frames : list (Canvas Page))
    : M unit :=
  match gif_path with
  | Some gif_path =>
      match frames with
      | [] => raise ValueError   (* [img, *imgs = frames] *)
      | img :: imgs =>
          call (EvSaveGif gif_path img imgs 200 0)
            (Image_save_gif lib gif_path img imgs 200 0)
      end
  | None => ret tt
  end.

(** [GitHelper.run]. *)
Definition run (g : GitHelper) (start_hash end_hash gif_path : option string)
    : M unit :=
  locals <- collect_frames g start_hash end_hash ;;
  encode gif_path (snd (fst locals)).

(** ** The command line *)

(** The namespace [parser.parse_args()] returns. *)
Record Namespace : Type := mkNamespace {
  arg_repository : string;
  arg_command : string;
  arg_pdfpath : string;
  arg_subdirectory : option string;
  arg_gifpath : option string;
  arg_framewidth : Z;
  arg_frameheight : Z;
  arg_pagewidth : Z;
  arg_pageheight : Z;
  arg_starthash : option string;
  arg_endhash : option string
}.

(** [main], from the parsed arguments on. *)
Definition main (args : Namespace) : M unit :=
  let renderer :=
    Renderer_init (arg_framewidth args, arg_frameheight args)
      (arg_pagewidth args, arg_pageheight args) None None in
  gh <- lift (GitHelper_init renderer (arg_repository args) (arg_command args)
                (arg_pdfpath args) (arg_subdirectory args)) ;;
  run gh (arg_starthash args) (arg_endhash args) (arg_gifpath args).

End Pipeline.

Arguments EvPrint {Page} v.
Arguments EvTraverse {Page} repository.
Arguments EvPopen {Page} args cwd.
Arguments EvConvert {Page} document size first last.

(** ** A small world to run the program in

    A repository whose history, unreadable revisions and git behaviour are
    given by a [Scenario]; a page is the revision it was built from and its
    number. *)

Record Scenario : Type := mkScenario {
  history : list string;       (* the hashes, oldest first *)
  unreadable : list string;    (* revisions whose PDF pdf2image cannot open *)
  git_spawns : bool;           (* whether the git executable can be started *)
  git_refuses : list string;   (* revisions git exits with status 128 on *)
  page_count : nat             (* pages of every readable PDF *)
}.

Record Tree : Type := mkTree {
  head : option string;        (* the revision the working tree is at *)
  written : list string        (* the files written so far, oldest first *)
}.

Definition SimPage : Type := (string * nat)%type.

Definition mem (s : string) (l : list string) : bool :=
  existsb (String.eqb s) l.

Definition sim_popen (sc : Scenario) (args : list string) (cwd : string)
    (w : Tree) : result process * Tree :=
  match args with
  | [a; b; c; h] =>
      if (String.eqb a "git" && String.eqb b "checkout" && String.eqb c "-f")%bool
      then
        if git_spawns sc then
          if mem h (git_refuses sc)
          then (inr (mkProcess 128 "" "fatal: unable to write new index file"), w)
          else (inr (mkProcess 0 "" ""),
                {| head := Some h; written := written w |})
        else (inl OSError, w)
      else (inr (mkProcess 0 "" ""), w)
  | _ => (inr (mkProcess 0 "" ""), w)
  end.

Definition sim_convert (sc : Scenario) (document : string) (size : Z * Z)
    (first last : option Z) (w : Tree) : result (list SimPage) * Tree :=
  match head w with
  | Some h =>
      if mem h (unreadable sc) then (inl PDFPageCountError, w)
      else (inr (map (fun k => (h, k)) (seq 1 (page_count sc))), w)
  | None => (inl PDFPageCountError, w)
  end.

Definition sim_write (path : string) (w : Tree) : result unit * Tree :=
  (inr tt, {| head := head w; written := written w ++ [path] |}).

Definition sim_lib (sc : Scenario) : Library SimPage Tree :=
  {| traverse_commits := fun _ w => (inr (history sc), w);
     Popen_communicate := sim_popen sc;
     convert_from_path := sim_convert sc;
     Image_save := fun path _ w => sim_write path w;
     Image_save_gif := fun path _ _ _ _ w => sim_write path w |}.

Definition sim_start : state SimPage Tree :=
  {| world := {| head := None; written := [] |}; log := [] |}.

(** The command line of the examples: default sizes, build with [make]. *)
Definition sim_args (subdirectory gifpath starthash endhash : option string)
    : Namespace :=
  {| arg_repository := "repo";
     arg_command := "make pdf";
     arg_pdfpath := "repo/paper.pdf";
     arg_subdirectory := subdirectory;
     arg_gifpath := gifpath;
     arg_framewidth := 800;
     arg_frameheight := 600;
     arg_pagewidth := 80;
     arg_pageheight := 100;
     arg_starthash := starthash;
     arg_endhash := endhash |}.

(** The paths of the PNG files a log says were saved, oldest first. *)
Fixpoint saved_pngs {Page : Type} (l : list (event Page)) : list string :=
  match l with
  | [] => []
  | EvSavePng path _ :: rest => path :: saved_pngs rest
  | _ :: rest => saved_pngs rest
  end.

(** Whether a log holds a call that writes an animation. *)
Fixpoint saves_gif {Page : Type} (l : list (event Page)) : bool :=
  match l with
  | [] => false
  | EvSaveGif _ _ _ _ _ :: _ => true
  | _ :: rest => saves_gif rest
  end.

(** The revisions a log says were checked out, oldest first. *)
Fixpoint checked_out {Page : Type} (l : list (event Page)) : list string :=
  match l with
  | [] => []
  | EvPopen [a; b; c; h] _ :: rest =>
      if (String.eqb a "git" && String.eqb b "checkout" && String.eqb c "-f")%bool
      then h :: checked_out rest else checked_out rest
  | _ :: rest => checked_out rest
  end.

(** The [try] blocks of the loop for the revisions [hs] one after the other,
    the first with the counter at [prefix]: the frames and the counter after
    the last of them.  The loop is compared with it below. *)
Fixpoint attempts {Page World : Type} (lib : Library Page World)
    (g : GitHelper) (hs : list string) (prefix : Z)
    (frames : list (Canvas Page)) : M Page World (list (Canvas Page) * Z) :=
  match hs with
  | [] => ret (frames, prefix)
  | h :: rest =>
      bind (attempt lib g h prefix frames)
           (fun frames' => attempts lib g rest (prefix + 1) frames')
  end.

(** A canvas with further pastes on it. *)
Definition add_pastes {Page : Type} (canvas : Canvas Page)
    (l : list (Page * (Z * Z))) : Canvas Page :=
  {| mode := mode canvas;
     size := size canvas;
     background := background canvas;
     pastes := pastes canvas ++ l |}.

(** The pastes the loop of [_layout_pages] makes for the pages [todo], the
    first of which has index [start]. *)
Definition placed {Page : Type} (pw ph n m : Z) (start : nat)
    (todo : list Page) : list (Page * (Z * Z)) :=
  map (fun ip : nat * Page =>
         (snd ip, (m + pw * (Z.of_nat (fst ip) mod n),
                   ph * (Z.of_nat (fst ip) / n))))
      (combine (seq start (List.length todo)) todo).

(** The command line of a page wider than the canvas. *)
Definition wide_args : Namespace :=
  {| arg_repository := "repo";
     arg_command := "make pdf";
     arg_pdfpath := "repo/paper.pdf";
     arg_subdirectory := Some "";
     arg_gifpath := Some "out.gif";
     arg_framewidth := 800;
     arg_frameheight := 600;
     arg_pagewidth := 900;
     arg_pageheight := 100;
     arg_starthash := None;
     arg_endhash := None |}.

(** The scenario of the specification's end-to-end example: three revisions,
    the second of which does not build into a readable PDF. *)
Definition abc : Scenario :=
  {| history := ["a"; "b"; "c"];
     unreadable := ["b"];
     git_spawns := true;
     git_refuses := [];
     page_count := 2 |}.

(** The helper [main] builds from [sim_args (Some "") ...] and from
    [wide_args]. *)
Definition sim_helper : GitHelper :=
  {| renderer := Renderer_init (800, 600) (80, 100) None None;
     src_repository := "repo";
     subdirectory := Some "";
     outpath := "repo/paper.pdf";
     cwd := "repo/";
     compilation_command := "make pdf" |}.

Definition wide_helper : GitHelper :=
  {| renderer := Renderer_init (800, 600) (900, 100) None None;
     src_repository := "repo";
     subdirectory := Some "";
     outpath := "repo/paper.pdf";
     cwd := "repo/";
     compilation_command := "make pdf" |}.

(** Two revisions, the second of which git refuses to check out. *)
Definition refused : Scenario :=
  {| history := ["a"; "b"];
     unreadable := [];
     git_spawns := true;
     git_refuses := ["b"];
     page_count := 2 |}.

(** A machine on which git cannot be started. *)
Definition no_git : Scenario :=
  {| history := ["a"; "b"];
     unreadable := [];
     git_spawns := false;
     git_refuses := [];
     page_count := 2 |}.

(** A history none of whose revisions builds into a readable PDF. *)
Definition all_broken : Scenario :=
  {| history := ["a"; "b"];
     unreadable := ["a"; "b"];
     git_spawns := true;
     git_refuses := [];
     page_count := 2 |}.

(** Whether a string holds no space. *)
Fixpoint no_space (s : string) : bool :=
  match s with
  | EmptyString => true
  | String c s' => (negb (Ascii.eqb c " "%char) && no_space s')%bool
  end.

(** The revisions the loop pops from a queue: those up to the first that is
    the end revision, that one included, or all of them; and the revisions it
    leaves in the queue. *)
Fixpoint until_end (end_hash : option string) (hashes : list string)
    : list string :=
  match hashes with
  | [] => []
  | h :: rest =>
      if is_end h end_hash then [h] else h :: until_end end_hash rest
  end.

Fixpoint after_end (end_hash : option string) (hashes : list string)
    : list string :=
  match hashes with
  | [] => []
  | h :: rest => if is_end h end_hash then rest else after_end end_hash rest
  end.

(** The queue [run] starts its loop on. *)
Definition start_queue (start_hash : option string) (hashes : list string)
    : list string :=
  match start_hash with
  | Some s => drop_until s hashes
  | None => hashes
  end.

(** The revisions of a history that [run] processes. *)
Definition window (start_hash end_hash : option string) (hashes : list string)
    : list string :=
  until_end end_hash (start_queue start_hash hashes).

(** The PNG files a log says were saved, each with its canvas, oldest
    first. *)
Fixpoint saved_images {Page : Type} (l : list (event Page))
    : list (string * Canvas Page) :=
  match l with
  | [] => []
  | EvSavePng path canvas :: rest => (path, canvas) :: saved_images rest
  | _ :: rest => saved_images rest
  end.

(** The outcome of the [try] block of a revision is its canvas, or nothing
    when the revision was skipped.  For the outcomes of successive revisions,
    the first with the counter at [prefix]: the files they leave, and the
    frames they add. *)
Fixpoint digest_files {Page : Type} (prefix : Z)
    (outcomes : list (option (Canvas Page))) : list (string * Canvas Page) :=
  match outcomes with
  | [] => []
  | Some canvas :: rest =>
      (str prefix ++ "_digest.png", canvas) :: digest_files (prefix + 1) rest
  | None :: rest => digest_files (prefix + 1) rest
  end.

Fixpoint accepted {Page : Type} (outcomes : list (option (Canvas Page)))
    : list (Canvas Page) :=
  match outcomes with
  | [] => []
  | Some canvas :: rest => canvas :: accepted rest
  | None :: rest => accepted rest
  end.

(** Whether an event is the call that writes an animation. *)
Definition is_gif {Page : Type} (ev : event Page) : bool :=
  match ev with
  | EvSaveGif _ _ _ _ _ => true
  | _ => false
  end.

(** A computation that writes no animation: whatever it does, the events it
    adds to the log hold no call that saves one. *)
Definition quiet {Page World A : Type} (m : M Page World A) : Prop :=
  forall (st st' : state Page World) (r : result A),
    m st = (r, st') ->
    exists delta : list (event Page),
      log st' = (log st ++ delta)%list /\ existsb is_gif delta = false.

(** A computation all of whose events satisfy [P]: whatever it does, the
    events it adds to the log do. *)
Definition emits {Page World A : Type} (P : event Page -> Prop)
    (m : M Page World A) : Prop :=
  forall (st st' : state Page World) (r : result A),
    m st = (r, st') ->
    exists delta : list (event Page),
      log st' = (log st ++ delta)%list /\ Forall P delta.

(** The events of a run of the helper [g] with the animation path
    [gif_path]. *)
Definition run_event {Page : Type} (g : GitHelper) (gif_path : option string)
    (ev : event Page) : Prop :=
  match ev with
  | EvPrint _ => True
  | EvTraverse repository => repository = src_repository g
  | EvPopen args dir =>
      (exists hash : string,
          args = ["git"; "checkout"; "-f"; hash] /\ dir = src_repository g)
      \/ (args = split_space (compilation_command g) /\ dir = cwd g)
  | EvConvert document size first last =>
      document = outpath g
      /\ size = page_size (renderer g)
      /\ first = first_page (renderer g)
      /\ last = last_page (renderer g)
  | EvSavePng path _ => exists k : Z, path = (str k ++ "_digest.png")%string
  | EvSaveGif path _ _ duration loop =>
      gif_path = Some path /\ duration = 200 /\ loop = 0
  end.

(** * Properties *)

(** ** Dimensions *)

(** C8: whatever width and height are requested, the constructor keeps a
    canvas dimension that is at least 100 and a page dimension that is at
    least 10, and replaces a smaller one by exactly 100, respectively 10; no
    dimension of a renderer is below its floor. *)
Theorem Renderer_init_clamps :
  forall (w h pw ph : Z) (fp lp : option Z),
    let r := Renderer_init (w, h) (pw, ph) fp lp in
    ((w < 100 -> fst (img_size r) = 100) /\ (100 <= w -> fst (img_size r) = w))
    /\ ((h < 100 -> snd (img_size r) = 100) /\ (100 <= h -> snd (img_size r) = h))
    /\ ((pw < 10 -> fst (page_size r) = 10) /\ (10 <= pw -> fst (page_size r) = pw))
    /\ ((ph < 10 -> snd (page_size r) = 10) /\ (10 <= ph -> snd (page_size r) = ph))
    /\ 100 <= fst (img_size r) /\ 100 <= snd (img_size r)
    /\ 10 <= fst (page_size r) /\ 10 <= snd (page_size r).
Proof.
  intros w h pw ph fp lp r. subst r. cbn [Renderer_init img_size page_size fst snd].
  repeat split; intros; lia.
Qed.

(** ** Floats *)

Lemma scaled_nonpos (n d e : Z) :
  e <= 0 -> scaled n d e = (n * 2 ^ (- e), d).
Proof.
  intros He. unfold scaled. destruct (Z.leb_spec 0 e) as [H0 | H0].
  - assert (e = 0) by lia. subst e. cbn. f_equal; lia.
  - reflexivity.
Qed.

Lemma round_half_even_cases (N D : Z) :
  round_half_even N D = N / D
  \/ (round_half_even N D = N / D + 1 /\ D <= 2 * (N mod D)).
Proof.
  unfold round_half_even.
  destruct (Z.compare_spec (2 * (N mod D)) D) as [H | H | H].
  - destruct (Z.even (N / D)); [now left | right; split; [reflexivity | lia]].
  - now left.
  - right. split; [reflexivity | lia].
Qed.

(** Below [2^53] the exponent is that of a mantissa of 53 bits, or that of
    the subnormal doubles. *)
Lemma ulp_exponent_spec (n d : Z) :
  0 < n < 2 ^ 53 -> 0 < d ->
  -1074 <= ulp_exponent n d <= 0
  /\ (ulp_exponent n d = -1074
      \/ 2 ^ 52 * d <= n * 2 ^ (- ulp_exponent n d)).
Proof.
  intros Hn Hd. unfold ulp_exponent.
  pose proof (Z.log2_nonneg n) as Hln0. pose proof (Z.log2_nonneg d) as Hld0.
  assert (Hln : Z.log2 n < 53) by (apply Z.log2_lt_pow2; lia).
  destruct (Z.log2_spec n ltac:(lia)) as [Hnlo Hnhi].
  destruct (Z.log2_spec d Hd) as [Hdlo Hdhi].
  set (ln := Z.log2 n) in *. set (ld := Z.log2 d) in *.
  rewrite scaled_nonpos by lia.
  destruct (Z.ltb_spec (n * 2 ^ (- (ln - ld - 52)) / d) (2 ^ 52)) as [Hlt | Hge].
  - split; [lia |].
    destruct (Z.max_spec (-1074) (ln - ld - 52 - 1)) as [[_ ->] | [_ ->]];
      [| now left].
    right. replace (- (ln - ld - 52 - 1)) with ((53 - ln) + ld) by lia.
    rewrite Z.pow_add_r by lia.
    assert (H1 : 2 ^ 53 = 2 ^ ln * 2 ^ (53 - ln))
      by (rewrite <- Z.pow_add_r by lia; f_equal; lia).
    assert (H2 : 2 ^ (ld + 1) = 2 * 2 ^ ld)
      by (rewrite Z.pow_add_r by lia; lia).
    assert (H3 : 2 ^ 53 = 2 * 2 ^ 52) by reflexivity.
    assert (Hp1 : 0 < 2 ^ (53 - ln)) by (apply Z.pow_pos_nonneg; lia).
    assert (Hp2 : 0 < 2 ^ ld) by (apply Z.pow_pos_nonneg; lia).
    set (A := 2 ^ (53 - ln)) in *. set (B := 2 ^ ld) in *.
    set (L := 2 ^ ln) in *.
    assert (S1 : 2 ^ 52 * d <= 2 ^ 52 * (2 * B)) by lia.
    assert (S2 : 2 ^ 52 * (2 * B) = L * (A * B)).
    { replace (L * (A * B)) with ((L * A) * B) by lia. rewrite <- H1. lia. }
    assert (S3 : L * (A * B) <= n * (A * B)).
    { apply Z.mul_le_mono_nonneg_r; [nia | lia]. }
    lia.
  - split; [lia |].
    destruct (Z.max_spec (-1074) (ln - ld - 52)) as [[_ ->] | [_ ->]];
      [| now left].
    right. pose proof (Z.mul_div_le (n * 2 ^ (- (ln - ld - 52))) d Hd). nia.
Qed.

(** With 53 bits for a quotient below [2^53], rounding up does not reach the
    next integer. *)
Lemma round_up_stays (a b P : Z) :
  0 < a < 2 ^ 53 -> 0 < b -> 0 < P ->
  (2 ^ 52 < P \/ 2 ^ 52 * b <= a * P) ->
  b <= 2 * ((a * P) mod b) ->
  (a * P / b + 1) / P = a / b.
Proof.
  intros Ha Hb HP Hnorm Hup.
  set (M0 := a * P / b) in *. set (r := (a * P) mod b) in *.
  set (q := a / b). set (rr := a mod b).
  assert (HM : a * P = b * M0 + r) by (apply Z.div_mod; lia).
  assert (Hq : a = b * q + rr) by (apply Z.div_mod; lia).
  assert (Hr : 0 <= r < b) by (apply Z.mod_pos_bound; lia).
  assert (Hrr : 0 <= rr < b) by (apply Z.mod_pos_bound; lia).
  assert (Hq0 : 0 <= q) by (apply Z.div_pos; lia).
  assert (HM0q : M0 / P = q).
  { unfold M0, q. rewrite Z.div_div by lia.
    now rewrite Z.div_mul_cancel_r by lia. }
  assert (Hlo : P * q <= M0) by (rewrite <- HM0q; apply Z.mul_div_le; lia).
  assert (Hhi : M0 < P * (q + 1)).
  { rewrite <- HM0q. pose proof (Z.mul_succ_div_gt M0 P HP). lia. }
  symmetry. apply Z.div_unique with (r := M0 + 1 - P * q); [| lia].
  left. split; [lia |].
  destruct (Z.eq_dec (M0 + 1) (P * (q + 1))) as [Heq | Hne]; [| lia].
  exfalso.
  assert (Hkey : (b - rr) * P = b - r) by nia.
  assert (H2P : 2 * P <= b) by nia.
  assert (HM52 : M0 < 2 ^ 52) by nia.
  destruct Hnorm as [Hsub | Hnorm]; nia.
Qed.

(** For a dividend below [2^53] and a positive divisor, [math.floor(a / b)]
    is the floor of the exact quotient. *)
Lemma floor_truediv_exact (a b : Z) :
  0 <= a < 2 ^ 53 -> 0 < b -> floor_truediv a b = inr (a / b).
Proof.
  intros Ha Hb. unfold floor_truediv, truediv.
  destruct (Z.eqb_spec b 0) as [? | _]; [lia |].
  destruct (Z.eqb_spec a 0) as [-> | Ha0].
  - rewrite Z.div_0_l by lia. reflexivity.
  - assert (Hpos : 0 < a < 2 ^ 53) by lia.
    rewrite (Z.abs_eq a), (Z.abs_eq b) by lia.
    destruct (ulp_exponent_spec Hpos Hb) as [He Hnorm].
    set (e := ulp_exponent a b) in *.
    rewrite scaled_nonpos by lia.
    set (P := 2 ^ (- e)).
    assert (HP : 0 < P) by (apply Z.pow_pos_nonneg; lia).
    set (m := round_half_even (a * P) b).
    assert (Hm : m / P = a / b).
    { assert (HM0 : a * P / b / P = a / b).
      { rewrite Z.div_div by lia. now rewrite Z.div_mul_cancel_r by lia. }
      destruct (round_half_even_cases (a * P) b) as [H | [H Hup]];
        unfold m; rewrite H; [exact HM0 |].
      apply round_up_stays; try assumption.
      destruct Hnorm as [Hsub | Hnorm]; [left | now right].
      unfold P. rewrite Hsub. apply Z.pow_lt_mono_r; lia. }
    assert (Hm0 : 0 <= m < 2 ^ 1024 * P).
    { assert (H0 : 0 <= a * P / b) by (apply Z.div_pos; nia).
      assert (H1 : a * P / b <= a * P).
      { apply Z.div_le_upper_bound; nia. }
      assert (Hbig : 2 ^ 53 + 1 < 2 ^ 1024) by (apply Z.ltb_lt; reflexivity).
      destruct (round_half_even_cases (a * P) b) as [H | [H _]];
        unfold m; rewrite H; nia. }
    rewrite (Z.sgn_pos a), (Z.sgn_pos b) by lia.
    destruct (Z.leb_spec 0 e) as [He0 | He0].
    + assert (e = 0) by lia.
      assert (HP1 : P = 1) by (unfold P; replace (- e) with 0 by lia; reflexivity).
      replace (2 ^ e) with 1 by (replace e with 0 by lia; reflexivity).
      destruct (Z.leb_spec (2 ^ 1024) (m * 1)) as [Hov | _]; [nia |].
      cbn [andb rbind math_floor].
      destruct (Z.leb_spec 0 e) as [_ | ?]; [| lia].
      replace (2 ^ e) with 1 by (replace e with 0 by lia; reflexivity).
      f_equal. rewrite <- Hm, HP1, Z.div_1_r. lia.
    + cbn [andb rbind math_floor].
      destruct (Z.leb_spec 0 e) as [? | _]; [lia |].
      f_equal. fold P. rewrite <- Hm. f_equal. lia.
Qed.

(** ** Layout *)

Section LayoutFacts.

Variable Page : Type.

Lemma add_pastes_nil (canvas : Canvas Page) : add_pastes canvas [] = canvas.
Proof.
  destruct canvas as [m s b p]. unfold add_pastes. cbn. now rewrite app_nil_r.
Qed.

Lemma add_pastes_paste (canvas : Canvas Page) (page : Page) (box : Z * Z)
    (l : list (Page * (Z * Z))) :
  add_pastes (paste canvas page box) l = add_pastes canvas ((page, box) :: l).
Proof.
  unfold add_pastes, paste. cbn. now rewrite <- app_assoc.
Qed.

Lemma paste_position_ok (pw ph n m : Z) (i : nat) :
  0 < n ->
  Z.of_nat i < 2 ^ 53 ->
  paste_position pw ph n m i
  = inr (m + pw * (Z.of_nat i mod n), ph * (Z.of_nat i / n)).
Proof.
  intros Hn Hi. unfold paste_position, py_mod.
  destruct (Z.eqb_spec n 0) as [E | _]; [lia |]. cbn [rbind].
  rewrite floor_truediv_exact by lia. reflexivity.
Qed.

Lemma layout_loop (pw ph n m : Z) :
  0 < n ->
  forall (todo done : list Page) (canvas : Canvas Page),
    Z.of_nat (List.length done + List.length todo) <= 2 ^ 53 ->
    for_each (seq (List.length done) (List.length todo))
      (fun i canvas =>
         (box <-- paste_position pw ph n m i ;;;
          page <-- list_get (done ++ todo) i ;;;
          inr (paste canvas page box))%result)
      canvas
    = inr (add_pastes canvas (placed pw ph n m (List.length done) todo)).
Proof.
  intros Hn. induction todo as [| p todo IH]; intros done canvas Hlen.
  - cbn. now rewrite add_pastes_nil.
  - cbn [List.length seq for_each] in Hlen |- *.
    rewrite paste_position_ok by lia. cbn [rbind].
    unfold list_get at 1.
    rewrite nth_error_app2 by lia. rewrite Nat.sub_diag. cbn [nth_error rbind].
    specialize (IH (done ++ [p])%list).
    rewrite <- app_assoc in IH. cbn [app] in IH.
    rewrite length_app in IH. cbn [List.length] in IH.
    rewrite Nat.add_1_r in IH. rewrite IH by lia.
    rewrite add_pastes_paste. reflexivity.
Qed.

(** Within the range of exact quotients the two locals are the values of the
    specification. *)
Lemma pages_per_row_exact (r : Renderer) :
  0 < fst (page_size r) ->
  0 <= fst (img_size r) < 2 ^ 53 ->
  pages_per_row r
  = inr (spec_pagesPerRow (fst (img_size r)) (fst (page_size r))).
Proof.
  intros Hpw Hcw. unfold pages_per_row, spec_pagesPerRow.
  destruct (img_size r) as [imgw imgh], (page_size r) as [pw ph].
  cbn [fst] in *. now apply floor_truediv_exact.
Qed.

Lemma leftover_bounds (cw pw : Z) :
  0 < pw -> 0 <= cw ->
  0 <= cw - cw / pw * pw <= cw.
Proof.
  intros Hpw Hcw. pose proof (Z.mul_div_le cw pw Hpw).
  assert (0 <= cw / pw) by (apply Z.div_pos; lia). nia.
Qed.

Lemma margin_exact (r : Renderer) :
  0 < fst (page_size r) ->
  0 <= fst (img_size r) < 2 ^ 53 ->
  margin r = inr (spec_margin (fst (img_size r)) (fst (page_size r))).
Proof.
  intros Hpw Hcw. unfold margin, spec_margin, spec_pagesPerRow.
  destruct (img_size r) as [imgw imgh], (page_size r) as [pw ph].
  cbn [fst] in *. rewrite floor_truediv_exact by lia. cbn [rbind].
  pose proof (leftover_bounds Hpw (proj1 Hcw)).
  apply floor_truediv_exact; lia.
Qed.

Lemma layout_ok (r : Renderer) (canvas : Canvas Page) (pages : list Page) :
  0 < fst (page_size r) ->
  0 <= fst (img_size r) < 2 ^ 53 ->
  1 <= fst (img_size r) / fst (page_size r) ->
  Z.of_nat (List.length pages) <= 2 ^ 53 ->
  _layout_pages r canvas pages
  = inr (add_pastes canvas
           (spec_placements (fst (img_size r)) (fst (page_size r))
              (snd (page_size r)) pages)).
Proof.
  intros Hpw Hcw Hn Hlen. unfold _layout_pages.
  destruct (img_size r) as [imgw imgh], (page_size r) as [pw ph].
  cbn [fst snd] in *. rewrite floor_truediv_exact by lia. cbn [rbind].
  pose proof (leftover_bounds Hpw (proj1 Hcw)).
  rewrite floor_truediv_exact by lia. cbn [rbind]. unfold for_range.
  exact (layout_loop pw ph ((imgw - imgw / pw * pw) / 2)
           (n := imgw / pw) ltac:(lia) pages [] canvas Hlen).
Qed.

Lemma spec_placements_nth (cw pw ph : Z) (pages : list Page) (i : nat)
    (page : Page) :
  nth_error pages i = Some page ->
  nth_error (spec_placements cw pw ph pages) i
  = Some (page, (spec_x cw pw i, spec_y cw pw ph i)).
Proof.
  intros H. unfold spec_placements.
  rewrite nth_error_map.
  assert (Hc : forall s, nth_error (combine (seq s (List.length pages)) pages) i
                         = Some ((s + i)%nat, page)).
  { revert i H. induction pages as [| p ps IH]; intros i H s.
    - destruct i; discriminate.
    - destruct i as [| i]; cbn in *.
      + injection H as <-. now rewrite Nat.add_0_r.
      + rewrite (IH i H (S s)). f_equal. f_equal. lia. }
  specialize (Hc 0%nat). cbn [Nat.add] in Hc.
  rewrite Hc. reflexivity.
Qed.

End LayoutFacts.

Lemma clamped_margin_nonneg (cw pw : Z) :
  0 < pw -> 0 <= spec_margin cw pw.
Proof.
  intros Hpw. unfold spec_margin, spec_pagesPerRow.
  apply Z.div_pos; [| lia].
  pose proof (Z.mul_div_le cw pw Hpw). lia.
Qed.

(** C2, as the code has it: the three quotients of the layout are floats.
    For a renderer built from any requested sizes whose canvas is less than
    [2^53] wide and holds at least one page per row, [_layout_pages] succeeds
    on every list of at most [2^53] pages and pastes page [i] at
    [x = margin + pageWidth * (i mod pagesPerRow)],
    [y = pageHeight * floor(i / pagesPerRow)], after whatever the canvas
    already held, with [pagesPerRow = floor(canvasWidth / pageWidth)] and
    [margin = floor((canvasWidth - pagesPerRow * pageWidth) / 2)]; page 0 goes
    to [(margin, 0)], and the margin is not negative. *)
Theorem layout_places_every_page :
  forall (Page : Type) (w h pw ph : Z) (fp lp : option Z)
         (canvas : Canvas Page) (pages : list Page),
    let r := Renderer_init (w, h) (pw, ph) fp lp in
    let canvasWidth := fst (img_size r) in
    let pageWidth := fst (page_size r) in
    let pageHeight := snd (page_size r) in
    let pagesPerRow := spec_pagesPerRow canvasWidth pageWidth in
    let margin' := spec_margin canvasWidth pageWidth in
    canvasWidth < 2 ^ 53 ->
    Z.of_nat (List.length pages) <= 2 ^ 53 ->
    1 <= pagesPerRow ->
    pages_per_row r = inr pagesPerRow
    /\ margin r = inr margin'
    /\ 0 <= margin'
    /\ exists canvas',
         _layout_pages r canvas pages = inr canvas'
         /\ mode canvas' = mode canvas
         /\ size canvas' = size canvas
         /\ background canvas' = background canvas
         /\ firstn (List.length (pastes canvas)) (pastes canvas') = pastes canvas
         /\ List.length (pastes canvas')
            = (List.length (pastes canvas) + List.length pages)%nat
         /\ (forall (i : nat) (page : Page),
               nth_error pages i = Some page ->
               nth_error (pastes canvas') (List.length (pastes canvas) + i)
               = Some (page,
                       (margin' + pageWidth * (Z.of_nat i mod pagesPerRow),
                        pageHeight * (Z.of_nat i / pagesPerRow))))
         /\ (forall page : Page,
               nth_error pages 0 = Some page ->
               nth_error (pastes canvas') (List.length (pastes canvas))
               = Some (page, (margin', 0))).
Proof.
  intros Page w h pw ph fp lp canvas pages r cw pgw pgh n m Hcw Hlen Hn.
  assert (Hpw : 0 < pgw) by (unfold pgw, r; cbn; lia).
  assert (Hcw0 : 0 <= cw < 2 ^ 53) by (unfold cw, r in *; cbn in *; lia).
  assert (Hnth : forall (i : nat) (page : Page),
             nth_error pages i = Some page ->
             nth_error (pastes canvas ++ spec_placements cw pgw pgh pages)
               (List.length (pastes canvas) + i)
             = Some (page, (m + pgw * (Z.of_nat i mod n), pgh * (Z.of_nat i / n)))).
  { intros i page Hi. rewrite nth_error_app2 by lia.
    replace (List.length (pastes canvas) + i - List.length (pastes canvas))%nat
      with i by lia.
    now rewrite (spec_placements_nth cw pgw pgh pages i Hi). }
  split; [| split; [| split]].
  - now apply pages_per_row_exact.
  - now apply margin_exact.
  - now apply clamped_margin_nonneg.
  - exists (add_pastes canvas (spec_placements cw pgw pgh pages)).
    split; [| split; [| split; [| split; [| split; [| split; [| split]]]]]].
    + now apply layout_ok.
    + reflexivity.
    + reflexivity.
    + reflexivity.
    + cbn [add_pastes pastes]. rewrite firstn_app, firstn_all, Nat.sub_diag.
      cbn [firstn]. now rewrite app_nil_r.
    + cbn [add_pastes pastes]. rewrite length_app. f_equal.
      unfold spec_placements.
      rewrite length_map, length_combine, length_seq. lia.
    + exact Hnth.
    + intros page H0. specialize (Hnth 0%nat page H0).
      rewrite Nat.add_0_r in Hnth. cbn [add_pastes pastes]. rewrite Hnth.
      change (Z.of_nat 0) with 0. rewrite Z.mod_0_l by lia.
      rewrite Z.div_0_l by lia. do 3 f_equal; lia.
Qed.

(** The default sizes of the command line, three pages on an empty canvas. *)
Lemma layout_places_every_page_witness :
  exists canvas' : Canvas nat,
    _layout_pages (Renderer_init (800, 600) (80, 100) None None)
      (_create_canvas (Renderer_init (800, 600) (80, 100) None None))
      [1%nat; 2%nat; 3%nat] = inr canvas'
    /\ nth_error (pastes canvas') 0 = Some (1%nat, (0, 0)).
Proof.
  destruct (layout_places_every_page (Page := nat) 800 600 80 100 None None
              (_create_canvas (Renderer_init (800, 600) (80, 100) None None))
              [1%nat; 2%nat; 3%nat])
    as (_ & _ & _ & canvas' & Hrun & _ & _ & _ & _ & _ & _ & H0).
  - vm_compute. reflexivity.
  - vm_compute. discriminate.
  - vm_compute. discriminate.
  - exists canvas'. split; [exact Hrun |]. exact (H0 1%nat eq_refl).
Defined.

(** A canvas of width 99999999999999999 and pages of width 10: the exact
    quotient gives 9999999999999999 pages per row and a margin of 4, the
    code 10000000000000000 pages per row and a margin of -1, and page 0 goes
    to [(-1, 0)].  And with one page per row and pages of height 100, the
    box computed for the index [2^53 + 1] has [y = 100 * 2^53], not
    [100 * (2^53 + 1)]. *)
Lemma huge_canvas_breaks_the_formulas :
  1 <= spec_pagesPerRow
         (fst (img_size (Renderer_init (99999999999999999, 600) (10, 100)
                          None None)))
         (fst (page_size (Renderer_init (99999999999999999, 600) (10, 100)
                            None None)))
  /\ spec_pagesPerRow 99999999999999999 10 = 9999999999999999
  /\ spec_margin 99999999999999999 10 = 4
  /\ pages_per_row (Renderer_init (99999999999999999, 600) (10, 100) None None)
     = inr 10000000000000000
  /\ margin (Renderer_init (99999999999999999, 600) (10, 100) None None)
     = inr (-1)
  /\ _layout_pages (Renderer_init (99999999999999999, 600) (10, 100) None None)
       (_create_canvas (Renderer_init (99999999999999999, 600) (10, 100)
                          None None))
       [tt]
     = inr (add_pastes
              (_create_canvas (Renderer_init (99999999999999999, 600) (10, 100)
                                 None None))
              [(tt, (-1, 0))])
  /\ paste_position 100 100 1 0 (Z.to_nat 9007199254740993)
     = inr (0, 900719925474099200)
  /\ 100 * (9007199254740993 / 1) = 900719925474099300.
Proof.
  split; [vm_compute; discriminate |].
  split; [vm_compute; reflexivity |]. split; [vm_compute; reflexivity |].
  split; [vm_compute; reflexivity |]. split; [vm_compute; reflexivity |].
  split; [vm_compute; reflexivity |]. split; [| reflexivity].
  unfold paste_position. rewrite Z2Nat.id by lia. vm_compute. reflexivity.
Qed.

Lemma next_row (n : Z) (i : nat) :
  1 <= n ->
  Z.of_nat (i + Z.to_nat n) mod n = Z.of_nat i mod n
  /\ Z.of_nat (i + Z.to_nat n) / n = Z.of_nat i / n + 1.
Proof.
  intros Hn. rewrite Nat2Z.inj_add, Z2Nat.id by lia.
  replace (Z.of_nat i + n) with (Z.of_nat i + 1 * n) by lia.
  split.
  - apply Z_mod_plus_full.
  - apply Z.div_add. lia.
Qed.

(** C9, as the code has it: for a renderer built from any requested sizes
    whose canvas is less than [2^53] wide, with
    [n = floor(canvasWidth / pageWidth) >= 1] pages per row, the box of index
    [i + n] has the [x] of the box of index [i] and lies exactly one page
    height below it, for every index below [2^53 - n]: [x(i) = x(i + n)] and
    [y(i) = y(i + n) - pageHeight], both for the boxes the loop computes and
    for the pastes found on the canvas that [_layout_pages] returns for a
    list of at most [2^53] pages. *)
Theorem layout_wraparound :
  forall (Page : Type) (w h pw ph : Z) (fp lp : option Z)
         (canvas : Canvas Page) (pages : list Page),
    let r := Renderer_init (w, h) (pw, ph) fp lp in
    let n := spec_pagesPerRow (fst (img_size r)) (fst (page_size r)) in
    fst (img_size r) < 2 ^ 53 ->
    Z.of_nat (List.length pages) <= 2 ^ 53 ->
    1 <= n ->
    pages_per_row r = inr n
    /\ (forall (m : Z) (i : nat),
          Z.of_nat i + n < 2 ^ 53 ->
          exists x y x' y' : Z,
            paste_position (fst (page_size r)) (snd (page_size r)) n m i
            = inr (x, y)
            /\ paste_position (fst (page_size r)) (snd (page_size r)) n m
                 (i + Z.to_nat n) = inr (x', y')
            /\ x = x' /\ y = y' - snd (page_size r))
    /\ exists canvas',
         _layout_pages r canvas pages = inr canvas'
         /\ forall (i : nat) (p q : Page),
              nth_error pages i = Some p ->
              nth_error pages (i + Z.to_nat n) = Some q ->
              exists x y x' y' : Z,
                nth_error (pastes canvas') (List.length (pastes canvas) + i)
                = Some (p, (x, y))
                /\ nth_error (pastes canvas')
                     (List.length (pastes canvas) + (i + Z.to_nat n))
                   = Some (q, (x', y'))
                /\ x = x' /\ y = y' - snd (page_size r).
Proof.
  intros Page w h pw ph fp lp canvas pages r n Hcw Hlen Hn.
  assert (Hpw : 0 < fst (page_size r)) by (unfold r; cbn; lia).
  assert (Hcw0 : 0 <= fst (img_size r) < 2 ^ 53)
    by (unfold r in *; cbn in *; lia).
  split; [now apply pages_per_row_exact |]. split.
  - intros m i Hi. destruct (next_row i Hn) as [Hmod Hquot].
    rewrite !paste_position_ok by (rewrite ?Nat2Z.inj_add, ?Z2Nat.id; lia).
    do 4 eexists. split; [reflexivity |]. split; [reflexivity |].
    rewrite Hmod, Hquot. split; lia.
  - eexists. split.
    + now apply layout_ok.
    + intros i p q Hp Hq. destruct (next_row i Hn) as [Hmod Hquot].
      cbn [add_pastes pastes]. rewrite !nth_error_app2 by lia.
      replace (List.length (pastes canvas) + i - List.length (pastes canvas))%nat
        with i by lia.
      replace (List.length (pastes canvas) + (i + Z.to_nat n)
               - List.length (pastes canvas))%nat
        with (i + Z.to_nat n)%nat by lia.
      rewrite (spec_placements_nth _ _ _ pages i Hp).
      rewrite (spec_placements_nth _ _ _ pages (i + Z.to_nat n) Hq).
      do 4 eexists. split; [reflexivity |]. split; [reflexivity |].
      unfold spec_x, spec_y. fold n. rewrite Hmod, Hquot.
      split; lia.
Qed.

(** Ten pages per row on the default sizes: pages 2 and 12 of a document. *)
Lemma layout_wraparound_witness :
  exists x y x' y' : Z,
    paste_position 80 100 10 0 2 = inr (x, y)
    /\ paste_position 80 100 10 0 12 = inr (x', y')
    /\ x = x' /\ y = y' - 100.
Proof.
  exact (proj1 (proj2 (layout_wraparound (Page := nat) 800 600 80 100 None None
                         (_create_canvas
                            (Renderer_init (800, 600) (80, 100) None None))
                         [] ltac:(vm_compute; reflexivity)
                         ltac:(vm_compute; discriminate)
                         ltac:(vm_compute; discriminate)))
               0 2%nat ltac:(vm_compute; reflexivity)).
Defined.

(** A canvas of width [2^54 - 1] and pages of width [2^53]: one page per row
    by the exact quotient, but the code counts two, and pastes pages 0 and 1
    side by side, at [(-1, 0)] and [(2^53 - 1, 0)], not one below the
    other.  And with one page per row and pages of height 100, the boxes
    computed for the indices [2^53] and [2^53 + 1] are the same, not one
    page height apart. *)
Lemma huge_canvas_breaks_wraparound :
  1 <= spec_pagesPerRow
         (fst (img_size (Renderer_init (18014398509481983, 600)
                           (9007199254740992, 100) None None)))
         (fst (page_size (Renderer_init (18014398509481983, 600)
                            (9007199254740992, 100) None None)))
  /\ spec_pagesPerRow 18014398509481983 9007199254740992 = 1
  /\ _layout_pages
       (Renderer_init (18014398509481983, 600) (9007199254740992, 100)
          None None)
       (_create_canvas
          (Renderer_init (18014398509481983, 600) (9007199254740992, 100)
             None None))
       [0%nat; 1%nat]
     = inr (add_pastes
              (_create_canvas
                 (Renderer_init (18014398509481983, 600)
                    (9007199254740992, 100) None None))
              [(0%nat, (-1, 0)); (1%nat, (9007199254740991, 0))])
  /\ -1 <> 9007199254740991
  /\ 0 <> 0 - 100
  /\ paste_position 100 100 1 0 (Z.to_nat 9007199254740992)
     = inr (0, 900719925474099200)
  /\ paste_position 100 100 1 0 (Z.to_nat 9007199254740992 + Z.to_nat 1)
     = inr (0, 900719925474099200)
  /\ 900719925474099200 <> 900719925474099200 - 100.
Proof.
  split; [vm_compute; discriminate |].
  split; [reflexivity |]. split; [vm_compute; reflexivity |].
  split; [discriminate |]. split; [discriminate |].
  unfold paste_position. rewrite Nat2Z.inj_add, !Z2Nat.id by lia.
  split; [vm_compute; reflexivity |]. split; [vm_compute; reflexivity |].
  discriminate.
Qed.

(** C4, as the code has it: a page wider than the canvas is accepted by the
    constructor, which only clamps; for a canvas less than [2^53] wide the
    renderer then has zero pages per row, lays out a document without pages
    unharmed, and raises [ZeroDivisionError] from [_layout_pages] on any
    document with a page.  The loop of [run] does not catch it: once the
    revision is checked out and built and its PDF rasterized to at least one
    page, the loop ends with that exception, before anything is saved. *)
Theorem wide_page_not_validated :
  forall (Page World : Type) (lib : Library Page World)
         (w h pw ph : Z) (fp lp : option Z),
    let r := Renderer_init (w, h) (pw, ph) fp lp in
    fst (img_size r) < 2 ^ 53 ->
    fst (img_size r) < fst (page_size r) ->
    pages_per_row r = inr 0
    /\ (forall canvas : Canvas Page, _layout_pages r canvas [] = inr canvas)
    /\ (forall (canvas : Canvas Page) (page : Page) (pages : list Page),
          _layout_pages r canvas (page :: pages) = inl ZeroDivisionError)
    /\ (forall (g : GitHelper) (hash : string) (rest : list string)
               (end_hash : option string) (frames : list (Canvas Page))
               (prefix : Z) (st st1 st2 : state Page World)
               (page : Page) (pages : list Page) (w' : World),
          renderer g = r ->
          checkout lib g hash st = (inr tt, st1) ->
          compile_pdf lib g st1 = (inr tt, st2) ->
          convert_from_path lib (outpath g) (page_size r) fp lp (world st2)
          = (inr (page :: pages), w') ->
          while_not_stop lib g end_hash false (hash :: rest) frames prefix st
          = (inl ZeroDivisionError,
             {| world := w';
                log := log st2 ++ [EvConvert (outpath g) (page_size r) fp lp] |})).
Proof.
  intros Page World lib w h pw ph fp lp r Hcw Hwide.
  assert (Hpw : 0 < fst (page_size r)) by (unfold r; cbn; lia).
  assert (Hcw0 : 0 <= fst (img_size r) < 2 ^ 53)
    by (unfold r in *; cbn in *; lia).
  assert (Hzero : fst (img_size r) / fst (page_size r) = 0)
    by (apply Z.div_small; lia).
  assert (Hppr : pages_per_row r = inr 0).
  { rewrite pages_per_row_exact by assumption.
    unfold spec_pagesPerRow. now rewrite Hzero. }
  assert (Hlay : forall (canvas : Canvas Page) (page : Page) (pages : list Page),
             _layout_pages r canvas (page :: pages) = inl ZeroDivisionError).
  { intros canvas page pages. unfold _layout_pages.
    destruct (img_size r) as [imgw imgh], (page_size r) as [pgw pgh].
    cbn [fst] in Hzero, Hpw, Hcw0.
    rewrite floor_truediv_exact by lia. cbn [rbind]. rewrite Hzero.
    rewrite floor_truediv_exact by lia. reflexivity. }
  split; [exact Hppr |]. split; [| split].
  - intros canvas. unfold _layout_pages.
    destruct (img_size r) as [imgw imgh], (page_size r) as [pgw pgh].
    cbn [fst] in Hzero, Hpw, Hcw0.
    rewrite floor_truediv_exact by lia. cbn [rbind]. rewrite Hzero.
    rewrite floor_truediv_exact by lia. reflexivity.
  - exact Hlay.
  - intros g hash rest end_hash frames prefix st st1 st2 page pages w'
           Hr Hco Hbuild Hconv.
    cbn [while_not_stop]. unfold bind at 1, attempt, try_except.
    unfold bind at 1. rewrite Hco. unfold bind at 1. rewrite Hbuild.
    unfold bind at 1, render. unfold bind at 1, call at 1.
    rewrite Hr. cbn [first_page last_page] in *.
    replace (first_page r) with fp by reflexivity.
    replace (last_page r) with lp by reflexivity.
    rewrite Hconv. unfold bind at 1, lift. rewrite Hlay. reflexivity.
Qed.

(** The run of [main] on [wide_args]: the constructor took the sizes, the
    first revision was checked out, and the layout of its PDF raised. *)
Lemma wide_page_surfaces_mid_run :
  pages_per_row (Renderer_init (800, 600) (900, 100) None None) = inr 0
  /\ fst (main (sim_lib abc) wide_args sim_start) = inl ZeroDivisionError
  /\ checked_out (log (snd (main (sim_lib abc) wide_args sim_start))) = ["a"]
  /\ saved_pngs (log (snd (main (sim_lib abc) wide_args sim_start))) = [].
Proof. vm_compute. repeat split. Qed.

Lemma wide_page_not_validated_witness :
  fst (while_not_stop (sim_lib abc) wide_helper None false ["a"; "b"; "c"]
         [] 1 sim_start)
  = inl ZeroDivisionError.
Proof.
  rewrite (proj2 (proj2 (proj2
             (wide_page_not_validated (sim_lib abc) 800 600 900 100 None None
                ltac:(vm_compute; reflexivity)
                ltac:(vm_compute; reflexivity))))
             wide_helper "a" ["b"; "c"] None [] 1 sim_start
             (snd (checkout (sim_lib abc) wide_helper "a" sim_start))
             (snd (compile_pdf (sim_lib abc) wide_helper
                     (snd (checkout (sim_lib abc) wide_helper "a" sim_start))))
             ("a", 1%nat) [("a", 2%nat)]
             {| head := Some "a"; written := [] |}
             eq_refl eq_refl eq_refl eq_refl).
  reflexivity.
Defined.

(** ** The run loop *)

Section LoopFacts.

Variable Page : Type.
Variable World : Type.
Variable lib : Library Page World.

Lemma bind_raise {A B : Type} (m : M Page World A) (k : A -> M Page World B)
    (st st' : state Page World) (e : exception) :
  m st = (inl e, st') -> bind m k st = (inl e, st').
Proof. intros H. unfold bind. now rewrite H. Qed.

Lemma bind_return {A B : Type} (m : M Page World A) (k : A -> M Page World B)
    (st st' : state Page World) (a : A) :
  m st = (inr a, st') -> bind m k st = k a st'.
Proof. intros H. unfold bind. now rewrite H. Qed.

Lemma bind_assoc {A B C : Type} (m : M Page World A)
    (k1 : A -> M Page World B) (k2 : B -> M Page World C)
    (st : state Page World) :
  bind (bind m k1) k2 st = bind m (fun a => bind (k1 a) k2) st.
Proof. unfold bind. destruct (m st) as [[e | a] st1]; reflexivity. Qed.

Lemma bind_ext {A B : Type} (m : M Page World A)
    (k k' : A -> M Page World B) (st : state Page World) :
  (forall (a : A) (st1 : state Page World), k a st1 = k' a st1) ->
  bind m k st = bind m k' st.
Proof.
  intros H. unfold bind. destruct (m st) as [[e | a] st1]; [reflexivity | apply H].
Qed.

Lemma bind_ext_l {A B : Type} (m m' : M Page World A)
    (k : A -> M Page World B) (st : state Page World) :
  (forall s : state Page World, m s = m' s) ->
  bind m k st = bind m' k st.
Proof. intros H. unfold bind. now rewrite H. Qed.

(** With [stop] set the loop is over. *)
Lemma while_not_stop_stopped (g : GitHelper) (end_hash : option string)
    (hashes : list string) (frames : list (Canvas Page)) (prefix : Z) :
  while_not_stop lib g end_hash true hashes frames prefix
  = ret (hashes, frames, prefix).
Proof. destruct hashes; reflexivity. Qed.

(** One turn of the loop. *)
Lemma while_not_stop_turn (g : GitHelper) (end_hash : option string)
    (hash : string) (rest : list string) (frames : list (Canvas Page))
    (prefix : Z) (st : state Page World) :
  while_not_stop lib g end_hash false (hash :: rest) frames prefix st
  = bind (attempt lib g hash prefix frames)
      (fun frames' =>
         while_not_stop lib g end_hash
           (is_end hash end_hash || (Z.of_nat (List.length rest) =? 0))%bool
           rest frames' (prefix + 1))
      st.
Proof. reflexivity. Qed.

(** What [render] returns is the file it saved, named after its prefix. *)
Lemma render_returns (r : Renderer) (document prefix path : string)
    (img : Canvas Page) (st st' : state Page World) :
  render lib r document prefix st = (inr (path, img), st') ->
  path = (prefix ++ "_digest.png")%string
  /\ exists l : list (event Page),
       log st'
       = (log st ++ l ++ [EvSavePng path img;
                          EvPrint (PyStr ("saved image as " ++ path))])%list.
Proof.
  unfold render, bind, call, lift, print, ret.
  destruct (convert_from_path lib document (page_size r) (first_page r)
              (last_page r) (world st)) as [[e | pages] w1]; [discriminate |].
  destruct (_layout_pages r (_create_canvas r) pages) as [e | canvas];
    [discriminate |].
  cbn [world log].
  destruct (Image_save lib (prefix ++ "_digest.png") canvas w1)
    as [[e | []] w2]; [discriminate |].
  cbn [world log]. intros H. injection H as <- <- <-.
  split; [reflexivity |]. cbn [log].
  exists [EvConvert document (page_size r) (first_page r) (last_page r)].
  now rewrite <- !app_assoc.
Qed.

Lemma attempts_counter (g : GitHelper) (hs : list string) :
  forall (prefix : Z) (frames frames' : list (Canvas Page)) (prefix' : Z)
         (st st' : state Page World),
    attempts lib g hs prefix frames st = (inr (frames', prefix'), st') ->
    prefix' = prefix + Z.of_nat (List.length hs).
Proof.
  induction hs as [| h hs IH]; intros prefix frames frames' prefix' st st' H.
  - cbn in H. injection H as _ <- _. cbn. lia.
  - cbn [attempts] in H. unfold bind in H.
    destruct (attempt lib g h prefix frames st) as [[e | fr] st1];
      [discriminate |].
    apply IH in H. rewrite H. cbn [List.length]. lia.
Qed.

End LoopFacts.

(** C1: take a turn of the loop for the popped revision [hash], with the
    counter at [prefix], whose checkout and build have completed.  If its
    render raises [PDFPageCountError], the loop prints the warning, appends
    no frame and goes on with the rest of the queue and the counter at
    [prefix + 1].  If its render returns, the file it saved is
    [str(prefix) + "_digest.png"], its canvas is the one frame appended, and
    the loop goes on with the counter at [prefix + 1] as well.  So after the
    [try] blocks of any revisions [hs], readable or not, the counter has
    advanced by [len(hs)]: a file is numbered by the attempt, not by the
    frames accepted so far. *)
Theorem skip_policy :
  forall (Page World : Type) (lib : Library Page World) (g : GitHelper)
         (end_hash : option string) (hash : string) (rest : list string)
         (frames : list (Canvas Page)) (prefix : Z)
         (st st1 st2 : state Page World),
    checkout lib g hash st = (inr tt, st1) ->
    compile_pdf lib g st1 = (inr tt, st2) ->
    (forall st3 : state Page World,
        render lib (renderer g) (outpath g) (str prefix) st2
        = (inl PDFPageCountError, st3) ->
        attempt lib g hash prefix frames st
        = (inr frames,
           {| world := world st3;
              log := log st3 ++ [EvPrint (PyStr (skip_message hash))] |})
        /\ while_not_stop lib g end_hash false (hash :: rest) frames prefix st
           = while_not_stop lib g end_hash
               (is_end hash end_hash || (Z.of_nat (List.length rest) =? 0))%bool
               rest frames (prefix + 1)
               {| world := world st3;
                  log := log st3 ++ [EvPrint (PyStr (skip_message hash))] |})
    /\ (forall (path : string) (img : Canvas Page) (st3 : state Page World),
          render lib (renderer g) (outpath g) (str prefix) st2
          = (inr (path, img), st3) ->
          path = (str prefix ++ "_digest.png")%string
          /\ attempt lib g hash prefix frames st = (inr (frames ++ [img])%list, st3)
          /\ while_not_stop lib g end_hash false (hash :: rest) frames prefix st
             = while_not_stop lib g end_hash
                 (is_end hash end_hash || (Z.of_nat (List.length rest) =? 0))%bool
                 rest (frames ++ [img])%list (prefix + 1) st3)
    /\ (forall (hs : list string) (frames0 frames' : list (Canvas Page))
               (prefix' : Z) (st0 st' : state Page World),
          attempts lib g hs prefix frames0 st0 = (inr (frames', prefix'), st') ->
          prefix' = prefix + Z.of_nat (List.length hs)).
Proof.
  intros Page World lib g end_hash hash rest frames prefix st st1 st2 Hco Hbuild.
  split; [| split].
  - intros st3 Hrender.
    assert (Hatt : attempt lib g hash prefix frames st
                   = (inr frames,
                      {| world := world st3;
                         log := log st3 ++ [EvPrint (PyStr (skip_message hash))] |})).
    { unfold attempt, try_except.
      rewrite (bind_return _ _ _ Hco), (bind_return _ _ _ Hbuild).
      rewrite (bind_raise _ _ _ Hrender). reflexivity. }
    split; [exact Hatt |].
    rewrite while_not_stop_turn. now rewrite (bind_return _ _ _ Hatt).
  - intros path img st3 Hrender.
    assert (Hatt : attempt lib g hash prefix frames st
                   = (inr (frames ++ [img])%list, st3)).
    { unfold attempt, try_except.
      rewrite (bind_return _ _ _ Hco), (bind_return _ _ _ Hbuild).
      rewrite (bind_return _ _ _ Hrender). reflexivity. }
    split; [exact (proj1 (render_returns _ _ _ _ _ Hrender)) |].
    split; [exact Hatt |].
    rewrite while_not_stop_turn. now rewrite (bind_return _ _ _ Hatt).
  - intros hs frames0 frames' prefix' st0 st' H.
    exact (attempts_counter _ _ _ _ _ _ H).
Qed.

(** The second revision of [abc], whose PDF cannot be opened: no frame, and
    the loop goes on to the third with the counter at 3. *)
Lemma skip_policy_witness :
  fst (attempt (sim_lib abc) sim_helper "b" 2 [] sim_start) = inr []
  /\ saved_pngs
       (log (snd (while_not_stop (sim_lib abc) sim_helper None false
                    ["b"; "c"] [] 2 sim_start)))
     = ["3_digest.png"].
Proof.
  destruct (proj1 (skip_policy (sim_lib abc) sim_helper None "b" ["c"] [] 2
                     sim_start
                     (st1 := snd (checkout (sim_lib abc) sim_helper "b" sim_start))
                     (st2 := snd (compile_pdf (sim_lib abc) sim_helper
                                    (snd (checkout (sim_lib abc) sim_helper "b"
                                            sim_start))))
                     eq_refl eq_refl)
              (snd (render (sim_lib abc) (renderer sim_helper)
                      (outpath sim_helper) (str 2)
                      (snd (compile_pdf (sim_lib abc) sim_helper
                              (snd (checkout (sim_lib abc) sim_helper "b"
                                      sim_start))))))
              eq_refl) as [Hatt Hloop].
  split.
  - now rewrite Hatt.
  - rewrite Hloop. reflexivity.
Defined.

Section EndFacts.

Variable Page : Type.
Variable World : Type.
Variable lib : Library Page World.
Variable g : GitHelper.

(** As long as the end revision is not met and revisions are left, the loop
    is the sequence of its [try] blocks. *)
Lemma loop_through (end_hash : option string) (pre : list string) :
  (forall h : string, In h pre -> is_end h end_hash = false) ->
  forall (hash : string) (rest : list string) (frames : list (Canvas Page))
         (prefix : Z) (st : state Page World),
    while_not_stop lib g end_hash false (pre ++ hash :: rest) frames prefix st
    = bind (attempts lib g pre prefix frames)
        (fun fp =>
           while_not_stop lib g end_hash false (hash :: rest) (fst fp) (snd fp))
        st.
Proof.
  induction pre as [| h pre IH]; intros Hpre hash rest frames prefix st.
  - reflexivity.
  - cbn [app]. rewrite while_not_stop_turn. cbn [attempts].
    rewrite bind_assoc. apply bind_ext. intros fr st1.
    rewrite (Hpre h (or_introl eq_refl)). rewrite length_app. cbn [List.length].
    replace (Z.of_nat (List.length pre + S (List.length rest)) =? 0) with false
      by (symmetry; apply Z.eqb_neq; lia).
    cbn [orb]. apply IH. intros h' Hin. apply Hpre. now right.
Qed.

(** The last turn: the popped revision is the end revision, or the queue is
    empty after it. *)
Lemma loop_last_turn (end_hash : option string) (hash : string)
    (rest : list string) (frames : list (Canvas Page)) (prefix : Z)
    (st : state Page World) :
  (is_end hash end_hash || (Z.of_nat (List.length rest) =? 0))%bool = true ->
  while_not_stop lib g end_hash false (hash :: rest) frames prefix st
  = bind (attempts lib g [hash] prefix frames)
      (fun fp => ret (rest, fst fp, snd fp)) st.
Proof.
  intros Hstop. rewrite while_not_stop_turn, Hstop. cbn [attempts].
  rewrite bind_assoc. apply bind_ext. intros fr st1.
  now rewrite while_not_stop_stopped.
Qed.

Lemma attempts_app (pre post : list string) :
  forall (prefix : Z) (frames : list (Canvas Page)) (st : state Page World),
    attempts lib g (pre ++ post) prefix frames st
    = bind (attempts lib g pre prefix frames)
        (fun fp => attempts lib g post (snd fp) (fst fp)) st.
Proof.
  induction pre as [| h pre IH]; intros prefix frames st.
  - reflexivity.
  - cbn [app attempts]. rewrite bind_assoc. apply bind_ext.
    intros fr st1. apply IH.
Qed.

End EndFacts.

(** C7: with the end revision [e] in the queue, first met after the
    revisions [pre] and followed by [post], the loop is exactly the [try]
    blocks of [pre] and of [e], in order, and then stops: when it returns,
    the queue it leaves is [post], however long, and the counter has advanced
    by [len(pre) + 1].  With no end revision in the queue (or none given),
    the loop is the [try] blocks of the whole queue, and it leaves the queue
    empty. *)
Theorem loop_halts_at_end_hash :
  forall (Page World : Type) (lib : Library Page World) (g : GitHelper)
         (e : string) (pre post : list string) (frames : list (Canvas Page))
         (prefix : Z) (st : state Page World),
    ~ In e pre ->
    while_not_stop lib g (Some e) false (pre ++ e :: post) frames prefix st
    = bind (attempts lib g (pre ++ [e]) prefix frames)
        (fun fp => ret (post, fst fp, snd fp)) st
    /\ (forall (hashes' : list string) (frames' : list (Canvas Page))
               (prefix' : Z) (st' : state Page World),
          while_not_stop lib g (Some e) false (pre ++ e :: post) frames prefix st
          = (inr (hashes', frames', prefix'), st') ->
          hashes' = post /\ prefix' = prefix + Z.of_nat (List.length pre) + 1)
    /\ (forall (end_hash : option string) (hs : list string),
          (forall h : string, In h hs -> is_end h end_hash = false) ->
          while_not_stop lib g end_hash (Z.of_nat (List.length hs) =? 0) hs
            frames prefix st
          = bind (attempts lib g hs prefix frames)
              (fun fp => ret ([], fst fp, snd fp)) st).
Proof.
  intros Page World lib g e pre post frames prefix st Hnotin.
  assert (Hloop :
            while_not_stop lib g (Some e) false (pre ++ e :: post) frames prefix st
            = bind (attempts lib g (pre ++ [e]) prefix frames)
                (fun fp => ret (post, fst fp, snd fp)) st).
  { rewrite loop_through.
    - symmetry. etransitivity.
      { apply bind_ext_l. intros s. apply attempts_app. }
      rewrite bind_assoc. symmetry. apply bind_ext. intros fp st1.
      apply loop_last_turn. cbn [is_end]. now rewrite String.eqb_refl.
    - intros h Hin. cbn [is_end]. apply String.eqb_neq.
      intros ->. contradiction. }
  split; [exact Hloop |]. split.
  - intros hashes' frames' prefix' st' Hret. rewrite Hloop in Hret.
    unfold bind in Hret.
    destruct (attempts lib g (pre ++ [e]) prefix frames st)
      as [[x | [fr p]] st1] eqn:Hatt; [discriminate |].
    cbn in Hret. injection Hret as <- <- <- <-.
    apply attempts_counter in Hatt. rewrite length_app in Hatt.
    cbn [List.length] in Hatt. split; [reflexivity | lia].
  - intros end_hash hs Hnone.
    destruct hs as [| h0 t]; [reflexivity |].
    destruct (@exists_last _ (h0 :: t) ltac:(discriminate)) as [init [last Heq]].
    rewrite Heq in *. rewrite length_app. cbn [List.length].
    replace (Z.of_nat (List.length init + 1) =? 0) with false
      by (symmetry; apply Z.eqb_neq; lia).
    rewrite loop_through.
    + symmetry. etransitivity.
      { apply bind_ext_l. intros s. apply attempts_app. }
      rewrite bind_assoc. symmetry. apply bind_ext. intros fp st1.
      apply loop_last_turn. apply orb_true_r.
    + intros h Hin. apply Hnone. apply in_or_app. now left.
Qed.

(** The history of [abc] with the end revision ["b"]: the loop returns with
    ["c"] still in the queue and the counter at 3. *)
Lemma loop_halts_at_end_hash_witness :
  match fst (while_not_stop (sim_lib abc) sim_helper (Some "b") false
               ["a"; "b"; "c"] [] 1 sim_start) with
  | inr (hashes', _, prefix') => hashes' = ["c"] /\ prefix' = 3
  | inl _ => False
  end.
Proof.
  assert (Hnotin : ~ In "b" ["a"])
    by (intros [H | []]; discriminate H).
  destruct (while_not_stop (sim_lib abc) sim_helper (Some "b") false
              ["a"; "b"; "c"] [] 1 sim_start)
    as [[x | [[hashes' frames'] prefix']] st'] eqn:E.
  - vm_compute in E. discriminate E.
  - exact (proj1 (proj2 (loop_halts_at_end_hash (sim_lib abc) sim_helper
                           "b" ["a"] ["c"] [] 1 sim_start Hnotin))
             hashes' frames' prefix' st' E).
Defined.

(** ** Failures that are not caught *)

Lemma not_page_count_error (e : exception) :
  e <> PDFPageCountError -> exception_eqb e PDFPageCountError = false.
Proof. destruct e; intros H; try reflexivity. now contradiction H. Qed.

(** C5, as the code has it: [checkout] never reads the exit status of git.
    Whatever process [Popen(...).communicate()] returns, with any return
    code, [checkout] prints its stderr and returns, and the turn goes on to
    the build.  Only an exception raised by the call itself (git cannot be
    started) leaves [checkout]: unless it is a [PDFPageCountError] the loop
    does not catch it, it ends the loop and whatever follows the loop in
    [run] at once, right after the call, so no animation is written. *)
Theorem checkout_failure_modes :
  forall (Page World : Type) (lib : Library Page World) (g : GitHelper)
         (hash : string) (st : state Page World),
    (forall (p : process) (w' : World),
        Popen_communicate lib ["git"; "checkout"; "-f"; hash]
          (src_repository g) (world st) = (inr p, w') ->
        checkout lib g hash st
        = (inr tt,
           {| world := w';
              log := log st
                     ++ [EvPrint (PyStr ("checking out hash " ++ hash));
                         EvPopen ["git"; "checkout"; "-f"; hash]
                           (src_repository g);
                         EvPrint (PyBytes (stderr p))] |}))
    /\ (forall (e : exception) (w' : World),
          Popen_communicate lib ["git"; "checkout"; "-f"; hash]
            (src_repository g) (world st) = (inl e, w') ->
          e <> PDFPageCountError ->
          forall (end_hash : option string) (rest : list string)
                 (frames : list (Canvas Page)) (prefix : Z) (A : Type)
                 (k : list string * list (Canvas Page) * Z -> M Page World A),
            bind (while_not_stop lib g end_hash false (hash :: rest)
                    frames prefix) k st
            = (inl e,
               {| world := w';
                  log := log st
                         ++ [EvPrint (PyStr ("checking out hash " ++ hash));
                             EvPopen ["git"; "checkout"; "-f"; hash]
                               (src_repository g)] |})).
Proof.
  intros Page World lib g hash st. split.
  - intros p w' Hpopen. unfold checkout, bind, print, call. cbn [world log].
    rewrite Hpopen. cbn [world log]. now rewrite <- !app_assoc.
  - intros e w' Hpopen He end_hash rest frames prefix A k.
    apply bind_raise. rewrite while_not_stop_turn. apply bind_raise.
    unfold attempt, try_except, checkout, bind, print, call. cbn [world log].
    rewrite Hpopen. rewrite (not_page_count_error He).
    now rewrite <- !app_assoc.
Qed.

(** Git cannot be started: the loop and the encoding after it end with the
    exception of the first checkout. *)
Lemma checkout_failure_modes_witness :
  fst (bind (while_not_stop (sim_lib no_git) sim_helper None false ["a"; "b"]
               [] 1)
         (fun locals =>
            encode (sim_lib no_git) (Some "out.gif") (snd (fst locals)))
         sim_start)
  = inl OSError.
Proof.
  rewrite (proj2 (checkout_failure_modes (sim_lib no_git) sim_helper "a"
                    sim_start)
             OSError {| head := None; written := [] |} eq_refl
             ltac:(discriminate) None ["b"] [] 1).
  reflexivity.
Defined.

(** Git refuses the second revision and exits with status 128: the run
    builds and renders it all the same, on the tree of the first, and writes
    the animation. *)
Lemma refused_checkout_is_not_fatal :
  fst (Popen_communicate (sim_lib refused) ["git"; "checkout"; "-f"; "b"]
         "repo" {| head := Some "a"; written := ["1_digest.png"] |})
  = inr (mkProcess 128 "" "fatal: unable to write new index file")
  /\ fst (main (sim_lib refused) (sim_args (Some "") (Some "out.gif") None None)
            sim_start) = inr tt
  /\ checked_out
       (log (snd (main (sim_lib refused)
                    (sim_args (Some "") (Some "out.gif") None None) sim_start)))
     = ["a"; "b"]
  /\ written
       (world (snd (main (sim_lib refused)
                      (sim_args (Some "") (Some "out.gif") None None) sim_start)))
     = ["1_digest.png"; "2_digest.png"; "out.gif"]
  /\ saves_gif
       (log (snd (main (sim_lib refused)
                    (sim_args (Some "") (Some "out.gif") None None) sim_start)))
     = true.
Proof. vm_compute. repeat split. Qed.

(** ** Encoding the animation *)

(** C3: the code does not handle an empty frame list.  With an animation
    path given and no frame collected, the last statement of [run] raises
    [ValueError] from [img, *imgs = frames], before any call that would write
    the animation; [main] on a history none of whose revisions can be opened
    ends with that exception. *)
Theorem encode_without_frames :
  (forall (Page World : Type) (lib : Library Page World) (gif_path : string)
          (st : state Page World),
      encode lib (Some gif_path) [] st = (inl ValueError, st))
  /\ fst (main (sim_lib all_broken)
            (sim_args (Some "") (Some "out.gif") None None) sim_start)
     = inl ValueError
  /\ checked_out
       (log (snd (main (sim_lib all_broken)
                    (sim_args (Some "") (Some "out.gif") None None) sim_start)))
     = ["a"; "b"]
  /\ written
       (world (snd (main (sim_lib all_broken)
                      (sim_args (Some "") (Some "out.gif") None None)
                      sim_start)))
     = [].
Proof.
  split; [reflexivity |]. vm_compute. repeat split.
Qed.

(** ** The start revision *)

Lemma drop_until_found (start : string) (pre post : list string) :
  ~ In start pre ->
  drop_until start (pre ++ start :: post) = start :: post.
Proof.
  induction pre as [| h pre IH]; intros Hnotin.
  - cbn. now rewrite String.eqb_refl.
  - cbn [app drop_until].
    destruct (String.eqb_spec h start) as [-> | _].
    + exfalso. apply Hnotin. now left.
    + apply IH. intros Hin. apply Hnotin. now right.
Qed.

Lemma drop_until_absent (start : string) (hs : list string) :
  ~ In start hs -> drop_until start hs = [].
Proof.
  induction hs as [| h hs IH]; intros Hnotin; [reflexivity |].
  cbn [drop_until].
  destruct (String.eqb_spec h start) as [-> | _].
  - exfalso. apply Hnotin. now left.
  - apply IH. intros Hin. apply Hnotin. now right.
Qed.

(** C6: the start filter of [run], for the history [hs] the repository
    reports.  When [start] occurs in it, first after the revisions [pre], the
    revisions before it are dropped and the loop starts on the queue that
    begins with [start], with no frame and the counter at 1; when [start]
    does not occur, the queue is empty, the loop does not turn, no frame is
    produced and nothing is raised, and [run] without an animation path
    returns having done nothing but read the history. *)
Theorem start_hash_filter :
  forall (Page World : Type) (lib : Library Page World) (g : GitHelper)
         (start : string) (end_hash : option string) (hs : list string)
         (st : state Page World) (w' : World),
    traverse_commits lib (src_repository g) (world st) = (inr hs, w') ->
    (forall pre post : list string,
        hs = (pre ++ start :: post)%list ->
        ~ In start pre ->
        drop_until start hs = start :: post
        /\ collect_frames lib g (Some start) end_hash st
           = while_not_stop lib g end_hash false (start :: post) [] 1
               {| world := w';
                  log := log st ++ [EvTraverse (src_repository g)] |})
    /\ (~ In start hs ->
        drop_until start hs = []
        /\ collect_frames lib g (Some start) end_hash st
           = (inr ([], [], 1),
              {| world := w';
                 log := log st ++ [EvTraverse (src_repository g)] |})
        /\ run lib g (Some start) end_hash None st
           = (inr tt,
              {| world := w';
                 log := log st ++ [EvTraverse (src_repository g)] |})).
Proof.
  intros Page World lib g start end_hash hs st w' Htrav.
  assert (Hhashes : hashes lib g st
                    = (inr hs, {| world := w';
                                  log := log st ++ [EvTraverse (src_repository g)] |})).
  { unfold hashes, call. now rewrite Htrav. }
  split.
  - intros pre post -> Hnotin.
    split; [now apply drop_until_found |].
    unfold collect_frames. rewrite (bind_return _ _ _ Hhashes).
    now rewrite drop_until_found.
  - intros Hnotin.
    assert (Hcollect : collect_frames lib g (Some start) end_hash st
                       = (inr ([], [], 1),
                          {| world := w';
                             log := log st ++ [EvTraverse (src_repository g)] |})).
    { unfold collect_frames. rewrite (bind_return _ _ _ Hhashes).
      now rewrite drop_until_absent. }
    split; [now apply drop_until_absent |]. split; [exact Hcollect |].
    unfold run. now rewrite (bind_return _ _ _ Hcollect).
Qed.

(** The history of [abc] from ["c"] on: the queue is ["c"] alone. *)
Lemma start_hash_filter_witness :
  drop_until "c" ["a"; "b"; "c"] = ["c"].
Proof.
  assert (Hnotin : ~ In "c" ["a"; "b"])
    by (intros [H | [H | []]]; discriminate H).
  exact (proj1 (proj1 (start_hash_filter (sim_lib abc) sim_helper "c" None
                         sim_start (hs := ["a"; "b"; "c"])
                         (w' := {| head := None; written := [] |}) eq_refl)
                  ["a"; "b"] [] eq_refl Hnotin)).
Defined.

(** ** The command line *)

(** C10: with [--subdirectory] left out, [main] hands [None] to the
    constructor of [GitHelper], whose [os.path.join] raises [TypeError]:
    [main] ends with it at once, with the world and the log as they were, so
    before the history is read or any revision processed.  With a string for
    the subdirectory the constructor returns, and [main] is [run] on the
    helper it built. *)
Theorem main_without_subdirectory :
  forall (Page World : Type) (lib : Library Page World)
         (repo cmd pdf : string) (gif : option string) (fw fh pw ph : Z)
         (sh eh : option string) (st : state Page World),
    GitHelper_init (Renderer_init (fw, fh) (pw, ph) None None) repo cmd pdf None
    = inl TypeError
    /\ main lib (mkNamespace repo cmd pdf None gif fw fh pw ph sh eh) st
       = (inl TypeError, st)
    /\ (forall s : string,
          exists dir : string,
            os_path_join repo (Some s) = inr dir
            /\ main lib (mkNamespace repo cmd pdf (Some s) gif fw fh pw ph sh eh)
                 st
               = run lib
                   {| renderer := Renderer_init (fw, fh) (pw, ph) None None;
                      src_repository := repo;
                      subdirectory := Some s;
                      outpath := pdf;
                      cwd := dir;
                      compilation_command := cmd |}
                   sh eh gif st).
Proof.
  intros Page World lib repo cmd pdf gif fw fh pw ph sh eh st.
  split; [reflexivity |]. split; [reflexivity |].
  intros s. unfold main, GitHelper_init, lift, bind.
  cbn [arg_repository arg_command arg_pdfpath arg_subdirectory arg_gifpath
       arg_framewidth arg_frameheight arg_pagewidth arg_pageheight
       arg_starthash arg_endhash].
  unfold os_path_join.
  destruct (starts_with_sep s);
    [| destruct (String.eqb repo "" || ends_with_sep repo)%bool];
    eexists; (split; [reflexivity |]); reflexivity.
Qed.

(** ** The end-to-end scenario of the specification *)

(** Three revisions of which the second cannot be opened, no bounds, an
    animation path: two frames, those of ["a"] and ["c"] in that order, the
    files [1_digest.png] and [3_digest.png], and one animation of these two
    frames at 200 ms a frame, looping. *)
Theorem end_to_end_scenario :
  exists (fa fc : Canvas SimPage) (st : state SimPage Tree),
    main (sim_lib abc) (sim_args (Some "") (Some "out.gif") None None) sim_start
    = (inr tt, st)
    /\ saved_pngs (log st) = ["1_digest.png"; "3_digest.png"]
    /\ written (world st) = ["1_digest.png"; "3_digest.png"; "out.gif"]
    /\ In (EvSavePng "1_digest.png" fa) (log st)
    /\ In (EvSavePng "3_digest.png" fc) (log st)
    /\ map fst (pastes fa) = [("a", 1%nat); ("a", 2%nat)]
    /\ map fst (pastes fc) = [("c", 1%nat); ("c", 2%nat)]
    /\ last (log st) (EvTraverse "") = EvSaveGif "out.gif" fa [fc] 200 0.
Proof.
  do 3 eexists. split; [vm_compute; reflexivity |].
  cbn [log world]. repeat split; try reflexivity.
  - do 7 right. left. reflexivity.
  - do 22 right. left. reflexivity.
Qed.

(** * Further properties of the layout *)

Section PlacementFacts.

Variable Page : Type.

Lemma spec_placements_length (cw pw ph : Z) (pages : list Page) :
  List.length (spec_placements cw pw ph pages) = List.length pages.
Proof.
  unfold spec_placements. rewrite length_map, length_combine, length_seq. lia.
Qed.

Lemma spec_placements_nth_inv (cw pw ph : Z) (pages : list Page) (i : nat)
    (page : Page) (x y : Z) :
  nth_error (spec_placements cw pw ph pages) i = Some (page, (x, y)) ->
  nth_error pages i = Some page
  /\ x = spec_x cw pw i /\ y = spec_y cw pw ph i.
Proof.
  intros H.
  assert (Hlt : (i < List.length pages)%nat).
  { rewrite <- (spec_placements_length cw pw ph). apply nth_error_Some.
    congruence. }
  destruct (nth_error pages i) as [p |] eqn:Hp.
  - rewrite (spec_placements_nth cw pw ph pages i Hp) in H.
    injection H as -> <- <-. auto.
  - apply nth_error_None in Hp. lia.
Qed.

Lemma spec_placements_In (cw pw ph : Z) (pages : list Page) (page : Page)
    (x y : Z) :
  In (page, (x, y)) (spec_placements cw pw ph pages) ->
  exists i : nat,
    nth_error pages i = Some page
    /\ x = spec_x cw pw i /\ y = spec_y cw pw ph i.
Proof.
  intros Hin. apply In_nth_error in Hin. destruct Hin as [i Hi].
  exists i. now apply spec_placements_nth_inv.
Qed.

(** On a fresh canvas the pastes are the placements, nothing else. *)
Lemma layout_fresh (r : Renderer) (pages : list Page) :
  0 < fst (page_size r) ->
  0 <= fst (img_size r) < 2 ^ 53 ->
  1 <= fst (img_size r) / fst (page_size r) ->
  Z.of_nat (List.length pages) <= 2 ^ 53 ->
  exists canvas' : Canvas Page,
    _layout_pages r (_create_canvas r) pages = inr canvas'
    /\ mode canvas' = "RGBA"%string
    /\ size canvas' = img_size r
    /\ background canvas' = (255, 255, 255, 255)
    /\ pastes canvas'
       = spec_placements (fst (img_size r)) (fst (page_size r))
           (snd (page_size r)) pages.
Proof.
  intros Hpw Hcw Hn Hlen. eexists. split; [now apply layout_ok |].
  repeat split.
Qed.

End PlacementFacts.

Lemma clamped_rows (w pw : Z) :
  Z.max 10 pw <= Z.max 100 w ->
  1 <= Z.max 100 w / Z.max 10 pw.
Proof.
  intros H. apply Z.div_le_lower_bound; lia.
Qed.

Lemma row_bounds (cw pw : Z) :
  0 < pw ->
  spec_pagesPerRow cw pw * pw <= cw < (spec_pagesPerRow cw pw + 1) * pw.
Proof.
  intros Hpw. unfold spec_pagesPerRow.
  pose proof (Z.mul_div_le cw pw Hpw).
  pose proof (Z.mul_succ_div_gt cw pw Hpw). lia.
Qed.

Lemma margin_balance (cw pw : Z) :
  0 < pw ->
  0 <= cw - spec_pagesPerRow cw pw * pw - 2 * spec_margin cw pw <= 1.
Proof.
  intros Hpw. unfold spec_margin.
  set (rest := cw - spec_pagesPerRow cw pw * pw).
  pose proof (Z.mul_div_le rest 2 ltac:(lia)).
  pose proof (Z.mul_succ_div_gt rest 2 ltac:(lia)). lia.
Qed.

(** Every page lies between the two margins.  For a renderer built by the
    constructor whose canvas is less than [2^53] wide and whose page is not
    wider than its canvas, [_layout_pages] on a fresh canvas puts every page
    of a document of at most [2^53] pages at an [x] with [margin <= x] and
    [x + pageWidth <= canvasWidth - margin], and at a [y >= 0]; a row holds
    as many pages as fit ([n * pageWidth <= canvasWidth < (n + 1) *
    pageWidth]), and the space left over is split between the two sides, the
    right one getting the odd pixel. *)
Theorem layout_within_width :
  forall (Page : Type) (w h pw ph : Z) (fp lp : option Z) (pages : list Page),
    let r := Renderer_init (w, h) (pw, ph) fp lp in
    fst (img_size r) < 2 ^ 53 ->
    Z.of_nat (List.length pages) <= 2 ^ 53 ->
    fst (page_size r) <= fst (img_size r) ->
    exists (n m : Z) (canvas' : Canvas Page),
      pages_per_row r = inr n
      /\ margin r = inr m
      /\ _layout_pages r (_create_canvas r) pages = inr canvas'
      /\ 1 <= n
      /\ n * fst (page_size r) <= fst (img_size r) < (n + 1) * fst (page_size r)
      /\ 0 <= m
      /\ 0 <= fst (img_size r) - n * fst (page_size r) - 2 * m <= 1
      /\ forall (page : Page) (x y : Z),
           In (page, (x, y)) (pastes canvas') ->
           m <= x
           /\ x + fst (page_size r) <= fst (img_size r) - m
           /\ 0 <= y.
Proof.
  intros Page w h pw ph fp lp pages r Hbound Hlen Hfit.
  assert (Hpw0 : 0 < fst (page_size r)) by (unfold r; cbn; lia).
  assert (Hcw0 : 0 <= fst (img_size r) < 2 ^ 53)
    by (unfold r in *; cbn in *; lia).
  pose proof (pages_per_row_exact r Hpw0 Hcw0) as Hppr.
  pose proof (margin_exact r Hpw0 Hcw0) as Hmargin.
  cbn [r Renderer_init img_size page_size fst snd] in Hfit, Hpw0, Hcw0, Hppr,
    Hmargin |- *.
  set (cw := Z.max 100 w) in *. set (pgw := Z.max 10 pw) in *.
  set (pgh := Z.max 10 ph).
  assert (Hn : 1 <= cw / pgw) by (apply clamped_rows; assumption).
  pose proof (row_bounds cw Hpw0) as Hrow.
  pose proof (margin_balance cw Hpw0) as Hbal.
  pose proof (clamped_margin_nonneg cw Hpw0) as Hm.
  unfold spec_pagesPerRow in Hrow, Hbal, Hppr.
  destruct (layout_fresh (Page := Page) r pages)
    as (canvas' & Hrun & _ & _ & _ & Hp); try assumption.
  exists (cw / pgw), (spec_margin cw pgw), canvas'.
  split; [exact Hppr |]. split; [exact Hmargin |]. split; [exact Hrun |].
  split; [exact Hn |]. split; [exact Hrow |]. split; [exact Hm |].
  split; [exact Hbal |].
  intros page x y Hin. rewrite Hp in Hin.
  apply spec_placements_In in Hin. destruct Hin as (i & _ & -> & ->).
  unfold spec_x, spec_y, spec_pagesPerRow.
  cbn [r Renderer_init img_size page_size fst snd]. fold cw pgw pgh.
  pose proof (Z.mod_pos_bound (Z.of_nat i) (cw / pgw) ltac:(lia)) as Hmod.
  assert (Hq : 0 <= Z.of_nat i / (cw / pgw))
    by (apply Z.div_pos; lia).
  assert (Hpgh : 0 < pgh) by (unfold pgh; lia).
  split; [nia |]. split; [nia | nia].
Qed.

(** The default sizes: ten pages of width 80 fill the 800 of the canvas. *)
Lemma layout_within_width_witness :
  exists (n m : Z) (canvas' : Canvas nat),
    pages_per_row (Renderer_init (800, 600) (80, 100) None None) = inr n
    /\ margin (Renderer_init (800, 600) (80, 100) None None) = inr m
    /\ _layout_pages (Renderer_init (800, 600) (80, 100) None None)
         (_create_canvas (Renderer_init (800, 600) (80, 100) None None))
         [1%nat; 2%nat] = inr canvas'.
Proof.
  destruct (layout_within_width (Page := nat) 800 600 80 100 None None
              [1%nat; 2%nat] ltac:(vm_compute; reflexivity)
              ltac:(vm_compute; discriminate)
              ltac:(vm_compute; discriminate))
    as (n & m & canvas' & Hn & Hm & Hrun & _).
  exists n, m, canvas'. auto.
Defined.

Lemma same_cell (n a b : Z) :
  0 < n -> a / n = b / n -> a mod n = b mod n -> a = b.
Proof.
  intros Hn Hq Hr.
  rewrite (Z.div_mod a n), (Z.div_mod b n) by lia. now rewrite Hq, Hr.
Qed.

(** No two pages overlap.  For a renderer built by the constructor whose
    canvas is less than [2^53] wide and whose page is not wider than its
    canvas, the boxes [_layout_pages] gives to two different pages of a
    document of at most [2^53] pages are disjoint: one lies wholly to the
    left of, to the right of, above or below the other. *)
Theorem layout_no_overlap :
  forall (Page : Type) (w h pw ph : Z) (fp lp : option Z) (pages : list Page),
    let r := Renderer_init (w, h) (pw, ph) fp lp in
    fst (img_size r) < 2 ^ 53 ->
    Z.of_nat (List.length pages) <= 2 ^ 53 ->
    fst (page_size r) <= fst (img_size r) ->
    exists canvas' : Canvas Page,
      _layout_pages r (_create_canvas r) pages = inr canvas'
      /\ forall (i j : nat) (p q : Page) (xi yi xj yj : Z),
           i <> j ->
           nth_error (pastes canvas') i = Some (p, (xi, yi)) ->
           nth_error (pastes canvas') j = Some (q, (xj, yj)) ->
           xi + fst (page_size r) <= xj
           \/ xj + fst (page_size r) <= xi
           \/ yi + snd (page_size r) <= yj
           \/ yj + snd (page_size r) <= yi.
Proof.
  intros Page w h pw ph fp lp pages r Hbound Hlen Hfit.
  assert (Hpw0 : 0 < fst (page_size r)) by (unfold r; cbn; lia).
  assert (Hcw0 : 0 <= fst (img_size r) < 2 ^ 53)
    by (unfold r in *; cbn in *; lia).
  cbn [r Renderer_init img_size page_size fst snd] in Hfit, Hpw0, Hcw0 |- *.
  set (cw := Z.max 100 w) in *. set (pgw := Z.max 10 pw) in *.
  set (pgh := Z.max 10 ph).
  assert (Hph : 0 < pgh) by (unfold pgh; lia).
  assert (Hn : 1 <= cw / pgw) by (apply clamped_rows; assumption).
  destruct (layout_fresh (Page := Page) r pages)
    as (canvas' & Hrun & _ & _ & _ & Hp); try assumption.
  exists canvas'. split; [exact Hrun |].
  intros i j p q xi yi xj yj Hij Hi Hj. rewrite Hp in Hi, Hj.
  apply spec_placements_nth_inv in Hi, Hj.
  destruct Hi as (_ & -> & ->). destruct Hj as (_ & -> & ->).
  unfold spec_x, spec_y, spec_pagesPerRow.
  cbn [r Renderer_init img_size page_size fst snd]. fold cw pgw pgh.
  set (n := cw / pgw) in *.
  pose proof (Z.mod_pos_bound (Z.of_nat i) n ltac:(lia)) as Hri.
  pose proof (Z.mod_pos_bound (Z.of_nat j) n ltac:(lia)) as Hrj.
  destruct (Z.eq_dec (Z.of_nat i / n) (Z.of_nat j / n)) as [Hq | Hq].
  - destruct (Z.eq_dec (Z.of_nat i mod n) (Z.of_nat j mod n)) as [Hr | Hr].
    + exfalso. apply Hij. apply Nat2Z.inj.
      apply (same_cell (n := n)); [lia | assumption | assumption].
    + destruct (Z.lt_total (Z.of_nat i mod n) (Z.of_nat j mod n))
        as [Hlt | [Heq | Hgt]]; [left; nia | contradiction | right; left; nia].
  - destruct (Z.lt_total (Z.of_nat i / n) (Z.of_nat j / n))
      as [Hlt | [Heq | Hgt]];
      [right; right; left; nia | contradiction | right; right; right; nia].
Qed.

(** Eleven pages on the default sizes: the first and the last share a
    column and lie in successive rows. *)
Lemma layout_no_overlap_witness :
  exists canvas' : Canvas nat,
    _layout_pages (Renderer_init (800, 600) (80, 100) None None)
      (_create_canvas (Renderer_init (800, 600) (80, 100) None None))
      (seq 0 11) = inr canvas'
    /\ nth_error (pastes canvas') 10 = Some (10%nat, (0, 100)).
Proof.
  destruct (layout_no_overlap (Page := nat) 800 600 80 100 None None
              (seq 0 11) ltac:(vm_compute; reflexivity)
              ltac:(vm_compute; discriminate)
              ltac:(vm_compute; discriminate))
    as (canvas' & Hrun & _).
  exists canvas'. split; [exact Hrun |].
  vm_compute in Hrun. injection Hrun as <-. reflexivity.
Defined.

Lemma div_lt_iff (a n k : Z) :
  0 < n -> (a / n < k <-> a < n * k).
Proof.
  intros Hn. split.
  - intros H. pose proof (Z.mul_succ_div_gt a n Hn). nia.
  - intros H. now apply Z.div_lt_upper_bound.
Qed.

(** Which pages fit.  The layout does not look at the height of the canvas:
    page [i] is still pasted when it sticks out below.  For a renderer built
    by the constructor whose canvas is less than [2^53] wide and whose page
    is not wider than its canvas, and a document of at most [2^53] pages,
    page [i] lies wholly above the lower edge exactly when
    [i < pages_per_row * floor(canvasHeight / pageHeight)]; every later page
    of the document reaches below the canvas. *)
Theorem layout_capacity :
  forall (Page : Type) (w h pw ph : Z) (fp lp : option Z) (pages : list Page),
    let r := Renderer_init (w, h) (pw, ph) fp lp in
    fst (img_size r) < 2 ^ 53 ->
    Z.of_nat (List.length pages) <= 2 ^ 53 ->
    fst (page_size r) <= fst (img_size r) ->
    exists (n : Z) (canvas' : Canvas Page),
      pages_per_row r = inr n
      /\ _layout_pages r (_create_canvas r) pages = inr canvas'
      /\ List.length (pastes canvas') = List.length pages
      /\ forall (i : nat) (p : Page) (x y : Z),
           nth_error (pastes canvas') i = Some (p, (x, y)) ->
           (y + snd (page_size r) <= snd (img_size r)
            <-> Z.of_nat i < n * (snd (img_size r) / snd (page_size r))).
Proof.
  intros Page w h pw ph fp lp pages r Hbound Hlen Hfit.
  assert (Hpw0 : 0 < fst (page_size r)) by (unfold r; cbn; lia).
  assert (Hcw0 : 0 <= fst (img_size r) < 2 ^ 53)
    by (unfold r in *; cbn in *; lia).
  pose proof (pages_per_row_exact r Hpw0 Hcw0) as Hppr.
  cbn [r Renderer_init img_size page_size fst snd] in Hfit, Hpw0, Hcw0, Hppr
    |- *.
  set (cw := Z.max 100 w) in *. set (pgw := Z.max 10 pw) in *.
  set (pgh := Z.max 10 ph). set (ch := Z.max 100 h).
  assert (Hph : 0 < pgh) by (unfold pgh; lia).
  assert (Hn : 1 <= cw / pgw) by (apply clamped_rows; assumption).
  destruct (layout_fresh (Page := Page) r pages)
    as (canvas' & Hrun & _ & _ & _ & Hp); try assumption.
  exists (cw / pgw), canvas'.
  split; [exact Hppr |]. split; [exact Hrun |]. split.
  - rewrite Hp. apply spec_placements_length.
  - intros i p x y Hi. rewrite Hp in Hi.
    apply spec_placements_nth_inv in Hi. destruct Hi as (_ & _ & ->).
    unfold spec_y, spec_pagesPerRow.
    cbn [r Renderer_init img_size page_size fst snd]. fold cw pgw pgh.
    set (n := cw / pgw) in *. set (q := Z.of_nat i / n).
    rewrite <- (div_lt_iff (Z.of_nat i) (ch / pgh) (n := n)) by lia. fold q.
    pose proof (Z.mul_div_le ch pgh Hph).
    pose proof (Z.mul_succ_div_gt ch pgh Hph).
    split; intros Hle; nia.
Qed.

(** The default sizes hold sixty pages; the sixty-first starts at the lower
    edge. *)
Lemma layout_capacity_witness :
  exists (n : Z) (canvas' : Canvas nat),
    pages_per_row (Renderer_init (800, 600) (80, 100) None None) = inr n
    /\ _layout_pages (Renderer_init (800, 600) (80, 100) None None)
         (_create_canvas (Renderer_init (800, 600) (80, 100) None None))
         (seq 0 61) = inr canvas'
    /\ nth_error (pastes canvas') 60 = Some (60%nat, (0, 600)).
Proof.
  destruct (layout_capacity (Page := nat) 800 600 80 100 None None
              (seq 0 61) ltac:(vm_compute; reflexivity)
              ltac:(vm_compute; discriminate)
              ltac:(vm_compute; discriminate))
    as (n & canvas' & Hn & Hrun & _).
  exists n, canvas'. split; [exact Hn |]. split; [exact Hrun |].
  vm_compute in Hrun. injection Hrun as <-. reflexivity.
Defined.

Lemma truediv_raises (a b : Z) (e : exception) :
  truediv a b = inl e -> e = ZeroDivisionError \/ e = OverflowError.
Proof.
  unfold truediv.
  destruct (b =? 0); [intros H; injection H as <-; now left |].
  destruct (a =? 0); [discriminate |].
  destruct (scaled (Z.abs a) (Z.abs b) (ulp_exponent (Z.abs a) (Z.abs b)))
    as [N D].
  match goal with |- context [if ?c then _ else _] => destruct c end;
    [intros H; injection H as <-; now right | discriminate].
Qed.

Lemma floor_truediv_raises (a b : Z) (e : exception) :
  floor_truediv a b = inl e -> e = ZeroDivisionError \/ e = OverflowError.
Proof.
  unfold floor_truediv. destruct (truediv a b) as [e' | x] eqn:H;
    [| discriminate].
  intros H'. injection H' as <-. exact (truediv_raises _ _ H).
Qed.

Section LayoutOutcomes.

Variable Page : Type.

Lemma paste_position_raises (pw ph n m : Z) (i : nat) (e : exception) :
  paste_position pw ph n m i = inl e ->
  e = ZeroDivisionError \/ e = OverflowError.
Proof.
  unfold paste_position, py_mod.
  destruct (n =? 0); [intros H; injection H as <-; now left |].
  cbn [rbind].
  destruct (floor_truediv (Z.of_nat i) n) as [e' | q] eqn:Hq; [| discriminate].
  intros H. injection H as <-. exact (floor_truediv_raises _ _ Hq).
Qed.

(** The loop of [_layout_pages], whatever the numbers: when it returns it
    has pasted the pages left, each once and in their order. *)
Lemma layout_loop_outcome (pw ph n m : Z) :
  forall (todo done : list Page) (canvas : Canvas Page),
    match
      for_each (seq (List.length done) (List.length todo))
        (fun i canvas =>
           (box <-- paste_position pw ph n m i ;;;
            page <-- list_get (done ++ todo) i ;;;
            inr (paste canvas page box))%result)
        canvas
    with
    | inr canvas' =>
        mode canvas' = mode canvas
        /\ size canvas' = size canvas
        /\ background canvas' = background canvas
        /\ map fst (pastes canvas') = (map fst (pastes canvas) ++ todo)%list
    | inl e => e = ZeroDivisionError \/ e = OverflowError
    end.
Proof.
  induction todo as [| p todo IH]; intros done canvas.
  - cbn. repeat split. now rewrite app_nil_r.
  - cbn [List.length seq for_each].
    destruct (paste_position pw ph n m (List.length done)) as [e | box] eqn:Hbox.
    + cbn [rbind]. exact (paste_position_raises _ _ _ _ _ Hbox).
    + cbn [rbind]. unfold list_get at 1.
      rewrite nth_error_app2 by lia. rewrite Nat.sub_diag.
      cbn [nth_error rbind].
      specialize (IH (done ++ [p])%list (paste canvas p box)).
      rewrite <- app_assoc in IH. cbn [app] in IH.
      rewrite length_app in IH. cbn [List.length] in IH.
      rewrite Nat.add_1_r in IH.
      match goal with
      | |- match ?x with _ => _ end => destruct x as [e | canvas']
      end; [exact IH |].
      destruct IH as (Hm & Hs & Hb & Hp). repeat split; try assumption.
      rewrite Hp. cbn [paste pastes]. rewrite map_app, <- app_assoc.
      reflexivity.
Qed.

(** Whatever the renderer, a layout that returns has pasted the pages of the
    document, each once and in their order, after what the canvas held, and
    a layout that raises raises [ZeroDivisionError] or [OverflowError]. *)
Lemma layout_outcome (r : Renderer) (canvas : Canvas Page) (pages : list Page) :
  match _layout_pages r canvas pages with
  | inr canvas' =>
      mode canvas' = mode canvas
      /\ size canvas' = size canvas
      /\ background canvas' = background canvas
      /\ map fst (pastes canvas') = (map fst (pastes canvas) ++ pages)%list
  | inl e => e = ZeroDivisionError \/ e = OverflowError
  end.
Proof.
  unfold _layout_pages.
  destruct (img_size r) as [imgw imgh], (page_size r) as [pw ph].
  destruct (floor_truediv imgw pw) as [e | n] eqn:Hn; cbn [rbind].
  { exact (floor_truediv_raises _ _ Hn). }
  destruct (floor_truediv (imgw - n * pw) 2) as [e | m] eqn:Hm; cbn [rbind].
  { exact (floor_truediv_raises _ _ Hm). }
  unfold for_range. exact (layout_loop_outcome pw ph n m pages [] canvas).
Qed.

Lemma layout_no_pages (r : Renderer) (canvas : Canvas Page) :
  0 < fst (page_size r) ->
  0 <= fst (img_size r) < 2 ^ 53 ->
  _layout_pages r canvas [] = inr canvas.
Proof.
  intros Hpw Hcw. unfold _layout_pages.
  destruct (img_size r) as [imgw imgh], (page_size r) as [pgw pgh].
  cbn [fst] in Hpw, Hcw.
  rewrite floor_truediv_exact by lia. cbn [rbind].
  pose proof (leftover_bounds Hpw (proj1 Hcw)).
  rewrite floor_truediv_exact by lia. reflexivity.
Qed.

Lemma layout_zero_rows (r : Renderer) (canvas : Canvas Page) (page : Page)
    (pages : list Page) :
  0 < fst (page_size r) ->
  0 <= fst (img_size r) < 2 ^ 53 ->
  fst (img_size r) / fst (page_size r) = 0 ->
  _layout_pages r canvas (page :: pages) = inl ZeroDivisionError.
Proof.
  intros Hpw Hcw Hzero. unfold _layout_pages.
  destruct (img_size r) as [imgw imgh], (page_size r) as [pgw pgh].
  cbn [fst] in Hpw, Hcw, Hzero.
  rewrite floor_truediv_exact by lia. cbn [rbind]. rewrite Hzero.
  rewrite floor_truediv_exact by lia. reflexivity.
Qed.

End LayoutOutcomes.

(** When the layout raises.  For a renderer built by the constructor whose
    canvas is less than [2^53] wide, and a document of at most [2^53] pages,
    [_layout_pages] raises exactly when the document has a page and the page
    is wider than the canvas, and what it raises then is
    [ZeroDivisionError]; it never raises [IndexError].  In every other case
    it returns a canvas with one more paste for each page. *)
Theorem layout_raises_iff :
  forall (Page : Type) (w h pw ph : Z) (fp lp : option Z)
         (canvas : Canvas Page) (pages : list Page),
    let r := Renderer_init (w, h) (pw, ph) fp lp in
    fst (img_size r) < 2 ^ 53 ->
    Z.of_nat (List.length pages) <= 2 ^ 53 ->
    (forall e : exception,
        _layout_pages r canvas pages = inl e ->
        e = ZeroDivisionError
        /\ pages <> []
        /\ fst (img_size r) < fst (page_size r))
    /\ (pages <> [] ->
        fst (img_size r) < fst (page_size r) ->
        _layout_pages r canvas pages = inl ZeroDivisionError)
    /\ (pages = [] \/ fst (page_size r) <= fst (img_size r) ->
        exists canvas' : Canvas Page,
          _layout_pages r canvas pages = inr canvas'
          /\ List.length (pastes canvas')
             = (List.length (pastes canvas) + List.length pages)%nat).
Proof.
  intros Page w h pw ph fp lp canvas pages r Hbound Hlen.
  assert (Hpw : 0 < fst (page_size r)) by (unfold r; cbn; lia).
  assert (Hcw : 0 <= fst (img_size r) < 2 ^ 53)
    by (unfold r in *; cbn in *; lia).
  assert (Hwide : pages <> [] ->
                  fst (img_size r) < fst (page_size r) ->
                  _layout_pages r canvas pages = inl ZeroDivisionError).
  { intros Hne Hlt. destruct pages as [| page pages]; [contradiction |].
    apply layout_zero_rows; [exact Hpw | exact Hcw |].
    apply Z.div_small. lia. }
  assert (Hfits : pages = [] \/ fst (page_size r) <= fst (img_size r) ->
                  exists canvas' : Canvas Page,
                    _layout_pages r canvas pages = inr canvas'
                    /\ List.length (pastes canvas')
                       = (List.length (pastes canvas) + List.length pages)%nat).
  { intros [-> | Hfit].
    - exists canvas. split; [now apply layout_no_pages |]. cbn. lia.
    - eexists. split.
      + apply layout_ok; [exact Hpw | exact Hcw | | exact Hlen].
        unfold r in *. cbn in *. now apply clamped_rows.
      + cbn [add_pastes pastes]. rewrite length_app.
        now rewrite spec_placements_length. }
  split; [| split; [exact Hwide | exact Hfits]].
  intros e He.
  destruct pages as [| page pages].
  - rewrite layout_no_pages in He by assumption. discriminate He.
  - destruct (Z_lt_le_dec (fst (img_size r)) (fst (page_size r))) as [Hlt | Hle].
    + rewrite Hwide in He by (assumption || discriminate).
      injection He as <-. split; [reflexivity |]. split; [discriminate | exact Hlt].
    + destruct (Hfits (or_intror Hle)) as (canvas' & Hrun & _). congruence.
Qed.

(** A canvas 800 wide and a page 900 wide, with one page to lay out. *)
Lemma layout_raises_iff_witness :
  _layout_pages (Renderer_init (800, 600) (900, 100) None None)
    (_create_canvas (Renderer_init (800, 600) (900, 100) None None)) [tt]
  = inl ZeroDivisionError.
Proof.
  apply (proj1 (proj2 (layout_raises_iff (Page := unit) 800 600 900 100
                         None None
                         (_create_canvas
                            (Renderer_init (800, 600) (900, 100) None None))
                         [tt] ltac:(vm_compute; reflexivity)
                         ltac:(vm_compute; discriminate)))).
  - discriminate.
  - vm_compute. reflexivity.
Defined.

(** * Further properties of rendering *)

(** What [render] returns.  When it returns, the rasterizer gave the pages
    of the document; the canvas returned is the one that was saved, under
    [prefix + "_digest.png"]; it is an RGBA image of the configured size with
    a white background that holds the pages of the document, each once and
    in their order; and the log gained the rasterizer call, the save and the
    line "saved image as ...", nothing else. *)
Theorem render_outcome :
  forall (Page World : Type) (lib : Library Page World) (r : Renderer)
         (document prefix path : string) (canvas : Canvas Page)
         (st st' : state Page World),
    render lib r document prefix st = (inr (path, canvas), st') ->
    exists (pages : list Page) (w1 : World),
      convert_from_path lib document (page_size r) (first_page r)
        (last_page r) (world st) = (inr pages, w1)
      /\ path = (prefix ++ "_digest.png")%string
      /\ Image_save lib path canvas w1 = (inr tt, world st')
      /\ log st'
         = (log st
            ++ [EvConvert document (page_size r) (first_page r) (last_page r);
                EvSavePng path canvas;
                EvPrint (PyStr ("saved image as " ++ path))])%list
      /\ mode canvas = "RGBA"%string
      /\ size canvas = img_size r
      /\ background canvas = (255, 255, 255, 255)
      /\ map fst (pastes canvas) = pages.
Proof.
  intros Page World lib r document prefix path canvas st st'.
  unfold render, bind, call, lift, print, ret.
  destruct (convert_from_path lib document (page_size r) (first_page r)
              (last_page r) (world st)) as [[e | pages] w1];
    cbn [world log]; [discriminate |].
  pose proof (layout_outcome r (_create_canvas r) pages) as Hlay.
  destruct (_layout_pages r (_create_canvas r) pages) as [e | c];
    [discriminate |].
  cbn [world log].
  destruct (Image_save lib (prefix ++ "_digest.png") c w1)
    as [[e | []] w2] eqn:Hsave; cbn [world log]; [discriminate |].
  intros H. injection H as <- <- <-.
  destruct Hlay as (Hm & Hs & Hb & Hp).
  exists pages, w1. cbn [world log].
  split; [reflexivity |]. split; [reflexivity |]. split; [exact Hsave |].
  split; [now rewrite <- !app_assoc |].
  repeat split; assumption.
Qed.

(** The first revision of [abc], rendered with the prefix ["1"]. *)
Lemma render_outcome_witness :
  exists (pages : list SimPage) (w1 : Tree),
    convert_from_path (sim_lib abc) "repo/paper.pdf" (80, 100) None None
      {| head := Some "a"; written := [] |} = (inr pages, w1)
    /\ pages = [("a", 1%nat); ("a", 2%nat)].
Proof.
  destruct (render (sim_lib abc) (renderer sim_helper) "repo/paper.pdf" "1"
              {| world := {| head := Some "a"; written := [] |}; log := [] |})
    as [[e | [path canvas]] st'] eqn:Hrender.
  - vm_compute in Hrender. discriminate Hrender.
  - destruct (render_outcome _ _ _ _ _ Hrender)
      as (pages & w1 & Hras & _ & _ & _ & _ & _ & _ & Hp).
    exists pages, w1. split; [exact Hras |].
    vm_compute in Hras. now injection Hras as <- _.
Defined.

(** * Further properties of the build step *)

Lemma split_space_nonempty (s : string) : split_space s <> [].
Proof.
  destruct s as [| c s]; cbn; [discriminate |].
  destruct (Ascii.eqb c " "%char); [discriminate |].
  destruct (split_space s); discriminate.
Qed.

Lemma concat_cons (sep x : string) (xs : list string) :
  xs <> [] ->
  String.concat sep (x :: xs) = (x ++ sep ++ String.concat sep xs)%string.
Proof. destruct xs; [contradiction | reflexivity]. Qed.

Lemma split_space_join (s : string) :
  String.concat " " (split_space s) = s.
Proof.
  induction s as [| c s IH]; [reflexivity |].
  cbn [split_space]. destruct (Ascii.eqb_spec c " "%char) as [-> | Hc].
  - rewrite concat_cons by apply split_space_nonempty. now rewrite IH.
  - destruct (split_space s) as [| w ws] eqn:Hs.
    + now destruct (split_space_nonempty s).
    + destruct ws as [| w' ws].
      * cbn in IH |- *. now rewrite IH.
      * rewrite concat_cons by discriminate.
        rewrite concat_cons in IH by discriminate.
        cbn [append] in IH |- *. now rewrite IH.
Qed.

Lemma split_space_no_space (s : string) :
  forallb no_space (split_space s) = true.
Proof.
  induction s as [| c s IH]; [reflexivity |].
  cbn [split_space]. destruct (Ascii.eqb c " "%char) eqn:Hc.
  - cbn. exact IH.
  - destruct (split_space s) as [| w ws]; cbn in IH |- *.
    + now rewrite Hc.
    + rewrite Hc. exact IH.
Qed.

(** The build command is cut at every single space and run in the working
    directory of the helper: the arguments handed to [Popen] hold no space
    and, joined by single spaces, give the command back, so an argument with
    a space in it cannot be passed.  [compile_pdf] returns whenever the
    process was started, whatever its exit status; it raises only what
    [Popen] raises. *)
Theorem compile_pdf_argv :
  forall (Page World : Type) (lib : Library Page World) (g : GitHelper)
         (st : state Page World),
    let args := split_space (compilation_command g) in
    let after :=
      (log st
       ++ [EvPrint (PyStr ("compiling pdf using command "
                           ++ compilation_command g));
           EvPopen args (cwd g)])%list in
    String.concat " " args = compilation_command g
    /\ forallb no_space args = true
    /\ args <> []
    /\ match Popen_communicate lib args (cwd g) (world st) with
       | (inr p, w') =>
           compile_pdf lib g st = (inr tt, {| world := w'; log := after |})
       | (inl e, w') =>
           compile_pdf lib g st = (inl e, {| world := w'; log := after |})
       end.
Proof.
  intros Page World lib g st args after.
  split; [apply split_space_join |].
  split; [apply split_space_no_space |].
  split; [apply split_space_nonempty |].
  unfold compile_pdf, bind, print, call, ret. cbn [world log]. fold args.
  destruct (Popen_communicate lib args (cwd g) (world st)) as [[e | p] w'];
    cbn [world log]; unfold after; now rewrite <- app_assoc.
Qed.

(** * Further properties of the run loop *)

Section WindowFacts.

Variable Page : Type.
Variable World : Type.
Variable lib : Library Page World.
Variable g : GitHelper.

Lemma bind_inr_inv {A B : Type} (m : M Page World A) (k : A -> M Page World B)
    (st st' : state Page World) (b : B) :
  bind m k st = (inr b, st') ->
  exists (a : A) (st1 : state Page World),
    m st = (inr a, st1) /\ k a st1 = (inr b, st').
Proof.
  unfold bind. destruct (m st) as [[e | a] st1]; [discriminate |].
  intros H. now exists a, st1.
Qed.

(** A [try] block adds one frame or none. *)
Lemma attempt_frames (hash : string) (prefix : Z)
    (frames frames' : list (Canvas Page)) (st st' : state Page World) :
  attempt lib g hash prefix frames st = (inr frames', st') ->
  frames' = frames \/ exists img : Canvas Page, frames' = (frames ++ [img])%list.
Proof.
  unfold attempt, try_except.
  match goal with
  | |- context [match ?body st with _ => _ end] =>
      destruct (body st) as [[e | fr] st1] eqn:Hbody
  end.
  - destruct (exception_eqb e PDFPageCountError); [| discriminate].
    unfold bind, print, ret. cbn. intros H. injection H as <- _. now left.
  - intros H. injection H as <- <-.
    apply bind_inr_inv in Hbody. destruct Hbody as (_ & s1 & _ & Hbody).
    apply bind_inr_inv in Hbody. destruct Hbody as (_ & s2 & _ & Hbody).
    apply bind_inr_inv in Hbody. destruct Hbody as (pi & s3 & _ & Hbody).
    unfold ret in Hbody. injection Hbody as <- _. right. now exists (snd pi).
Qed.

Lemma attempts_frames (hs : list string) :
  forall (prefix : Z) (frames frames' : list (Canvas Page)) (prefix' : Z)
         (st st' : state Page World),
    attempts lib g hs prefix frames st = (inr (frames', prefix'), st') ->
    exists new : list (Canvas Page),
      frames' = (frames ++ new)%list
      /\ (List.length new <= List.length hs)%nat.
Proof.
  induction hs as [| h hs IH]; intros prefix frames frames' prefix' st st' H.
  - cbn in H. injection H as <- _ _. exists []. split; [now rewrite app_nil_r |].
    cbn. lia.
  - cbn [attempts] in H. apply bind_inr_inv in H.
    destruct H as (fr & st1 & Hatt & Hrest).
    apply IH in Hrest. destruct Hrest as (new & -> & Hlen).
    apply attempt_frames in Hatt. destruct Hatt as [-> | [img ->]].
    + exists new. split; [reflexivity |]. cbn. lia.
    + exists (img :: new). split; [now rewrite <- app_assoc |]. cbn. lia.
Qed.

(** The loop, for any queue and any end revision. *)
Lemma loop_is_attempts (end_hash : option string) (hs : list string) :
  forall (frames : list (Canvas Page)) (prefix : Z) (st : state Page World),
    while_not_stop lib g end_hash (Z.of_nat (List.length hs) =? 0) hs
      frames prefix st
    = bind (attempts lib g (until_end end_hash hs) prefix frames)
        (fun fp => ret (after_end end_hash hs, fst fp, snd fp)) st.
Proof.
  induction hs as [| h rest IH]; intros frames prefix st; [reflexivity |].
  replace (Z.of_nat (List.length (h :: rest)) =? 0) with false
    by (symmetry; apply Z.eqb_neq; cbn [List.length]; lia).
  rewrite while_not_stop_turn. cbn [until_end after_end].
  destruct (is_end h end_hash); cbn [orb attempts];
    rewrite bind_assoc; apply bind_ext; intros fr st1.
  - now rewrite while_not_stop_stopped.
  - apply IH.
Qed.

End WindowFacts.

Lemma until_after_end (end_hash : option string) (hs : list string) :
  (until_end end_hash hs ++ after_end end_hash hs)%list = hs.
Proof.
  induction hs as [| h rest IH]; [reflexivity |].
  cbn [until_end after_end]. destruct (is_end h end_hash); cbn; [reflexivity |].
  now rewrite IH.
Qed.

Lemma drop_until_suffix (start : string) (hs : list string) :
  exists pre : list string, hs = (pre ++ drop_until start hs)%list.
Proof.
  induction hs as [| h rest [pre IH]]; [now exists [] |].
  cbn [drop_until]. destruct (String.eqb h start).
  - now exists [].
  - exists (h :: pre). cbn. now rewrite <- IH.
Qed.

Lemma drop_until_head (start : string) (hs : list string) :
  In start hs -> exists post : list string, drop_until start hs = start :: post.
Proof.
  induction hs as [| h rest IH]; intros Hin; [contradiction |].
  cbn [drop_until]. destruct (String.eqb_spec h start) as [-> | Hne].
  - now exists rest.
  - destruct Hin as [-> | Hin]; [contradiction | now apply IH].
Qed.

Lemma until_end_last (e : string) (hs : list string) :
  In e hs ->
  exists init : list string,
    until_end (Some e) hs = (init ++ [e])%list /\ ~ In e init.
Proof.
  induction hs as [| h rest IH]; intros Hin; [contradiction |].
  cbn [until_end is_end]. destruct (String.eqb_spec h e) as [-> | Hne].
  - exists []. split; [reflexivity | intros []].
  - destruct Hin as [-> | Hin]; [contradiction |].
    destruct (IH Hin) as (init & -> & Hnotin).
    exists (h :: init). split; [reflexivity |].
    intros [-> | H]; [now apply Hne | now apply Hnotin].
Qed.

(** The revisions [run] processes.  For the history [hs] the repository
    reports, the part of [run] up to the end of its loop is the [try] blocks
    of the revisions of [window start_hash end_hash hs], in order, each once,
    with no frame and the counter at 1 to begin with.  The window is a
    contiguous piece of the history; it begins with the start revision when
    that is given and occurs, ends with the first end revision at or after
    it when that is given and occurs there, and is the last revision alone
    when the start revision is the last of the history and occurs nowhere
    else.  When the loop returns, the counter is one more than the number of
    revisions of the window and there are at most as many frames. *)
Theorem run_processes_window :
  forall (Page World : Type) (lib : Library Page World) (g : GitHelper)
         (start_hash end_hash : option string) (hs : list string)
         (st : state Page World) (w' : World),
    traverse_commits lib (src_repository g) (world st) = (inr hs, w') ->
    let queue := start_queue start_hash hs in
    let processed := window start_hash end_hash hs in
    collect_frames lib g start_hash end_hash st
    = bind (attempts lib g processed 1 [])
        (fun fp => ret (after_end end_hash queue, fst fp, snd fp))
        {| world := w'; log := log st ++ [EvTraverse (src_repository g)] |}
    /\ (exists pre : list string,
          hs = (pre ++ processed ++ after_end end_hash queue)%list)
    /\ (forall s : string,
          start_hash = Some s -> In s hs ->
          exists rest : list string, processed = s :: rest)
    /\ (forall e : string,
          end_hash = Some e -> In e queue ->
          exists init : list string,
            processed = (init ++ [e])%list /\ ~ In e init)
    /\ (forall (s : string) (init : list string),
          start_hash = Some s -> hs = (init ++ [s])%list -> ~ In s init ->
          processed = [s])
    /\ (forall (hashes' : list string) (frames' : list (Canvas Page))
               (prefix' : Z) (st' : state Page World),
          collect_frames lib g start_hash end_hash st
          = (inr (hashes', frames', prefix'), st') ->
          hashes' = after_end end_hash queue
          /\ prefix' = 1 + Z.of_nat (List.length processed)
          /\ (List.length frames' <= List.length processed)%nat).
Proof.
  intros Page World lib g start_hash end_hash hs st w' Htrav queue processed.
  assert (Hhashes : hashes lib g st
                    = (inr hs, {| world := w';
                                  log := log st ++ [EvTraverse (src_repository g)] |})).
  { unfold hashes, call. now rewrite Htrav. }
  assert (Hcollect :
            collect_frames lib g start_hash end_hash st
            = bind (attempts lib g processed 1 [])
                (fun fp => ret (after_end end_hash queue, fst fp, snd fp))
                {| world := w'; log := log st ++ [EvTraverse (src_repository g)] |}).
  { unfold collect_frames. rewrite (bind_return _ _ _ Hhashes).
    exact (loop_is_attempts lib g end_hash queue [] 1 _). }
  split; [exact Hcollect |].
  split; [| split; [| split; [| split]]].
  - unfold processed, window. fold queue. rewrite until_after_end.
    unfold queue, start_queue. destruct start_hash as [s |].
    + apply drop_until_suffix.
    + now exists [].
  - intros s -> Hin. unfold processed, window, start_queue.
    destruct (drop_until_head s hs Hin) as [post ->].
    cbn [until_end]. destruct (is_end s end_hash); eauto.
  - intros e -> Hin. unfold processed, window. fold queue.
    now apply until_end_last.
  - intros s init -> -> Hnotin. unfold processed, window, start_queue.
    rewrite drop_until_found by assumption.
    cbn [until_end]. now destruct (is_end s end_hash).
  - intros hashes' frames' prefix' st' Hret. rewrite Hcollect in Hret.
    apply bind_inr_inv in Hret. destruct Hret as ([fr p] & st1 & Hatt & Hret).
    unfold ret in Hret. cbn [fst snd] in Hret. injection Hret as <- <- <- _.
    split; [reflexivity |]. split.
    + apply attempts_counter in Hatt. lia.
    + apply attempts_frames in Hatt. destruct Hatt as (new & -> & Hlen).
      exact Hlen.
Qed.

(** The history of [abc] from ["b"] to ["b"]: that revision alone. *)
Lemma run_processes_window_witness :
  collect_frames (sim_lib abc) sim_helper (Some "b") (Some "b") sim_start
  = bind (attempts (sim_lib abc) sim_helper ["b"] 1 [])
      (fun fp => ret (["c"], fst fp, snd fp))
      {| world := {| head := None; written := [] |};
         log := [EvTraverse "repo"] |}.
Proof.
  exact (proj1 (run_processes_window (sim_lib abc) sim_helper (Some "b")
                  (Some "b") sim_start (hs := ["a"; "b"; "c"])
                  (w' := {| head := None; written := [] |}) eq_refl)).
Defined.

(** ** Files and frames *)

Lemma str_inj (n n' : Z) : str n = str n' -> n = n'.
Proof.
  unfold str. intros H.
  assert (Hok : forall z : Z, Z.to_int z <> Decimal.Pos Decimal.Nil
                              /\ Z.to_int z <> Decimal.Neg Decimal.Nil).
  { intros z. split; intros E; pose proof (f_equal Z.of_int E) as E';
      rewrite DecimalZ.of_to in E'; cbn in E'; subst z; discriminate E. }
  apply DecimalZ.to_int_inj.
  assert (Hs : Some (Z.to_int n) = Some (Z.to_int n')).
  { rewrite <- (NilZero.isi (Z.to_int n)) by apply Hok.
    rewrite <- (NilZero.isi (Z.to_int n')) by apply Hok.
    now rewrite H. }
  now injection Hs.
Qed.

Lemma append_length (s t : string) :
  String.length (s ++ t) = (String.length s + String.length t)%nat.
Proof. induction s as [| c s IH]; cbn; [reflexivity | now rewrite IH]. Qed.

Lemma append_cancel_r (s s' t : string) :
  (s ++ t)%string = (s' ++ t)%string -> s = s'.
Proof.
  revert s'. induction s as [| c s IH]; intros [| c' s'] H.
  - reflexivity.
  - apply (f_equal String.length) in H. cbn in H.
    rewrite append_length in H. lia.
  - apply (f_equal String.length) in H. cbn in H.
    rewrite append_length in H. lia.
  - cbn in H. injection H as -> H. f_equal. now apply IH.
Qed.

Section FileFacts.

Variable Page : Type.

Lemma saved_images_app (l1 l2 : list (event Page)) :
  saved_images (l1 ++ l2) = (saved_images l1 ++ saved_images l2)%list.
Proof.
  induction l1 as [| ev l1 IH]; [reflexivity |].
  destruct ev; cbn; now rewrite ?IH.
Qed.

Lemma accepted_files (prefix : Z) (outcomes : list (option (Canvas Page))) :
  accepted outcomes = map snd (digest_files prefix outcomes).
Proof.
  revert prefix. induction outcomes as [| [c |] rest IH]; intros prefix; cbn.
  - reflexivity.
  - f_equal. apply IH.
  - apply IH.
Qed.

Lemma accepted_app (o1 o2 : list (option (Canvas Page))) :
  accepted (o1 ++ o2) = (accepted o1 ++ accepted o2)%list.
Proof.
  induction o1 as [| [c |] o1 IH]; cbn; now rewrite ?IH.
Qed.

Lemma digest_files_names (outcomes : list (option (Canvas Page))) :
  forall (prefix : Z) (name : string),
    In name (map fst (digest_files prefix outcomes)) ->
    exists k : Z,
      prefix <= k < prefix + Z.of_nat (List.length outcomes)
      /\ name = (str k ++ "_digest.png")%string.
Proof.
  induction outcomes as [| [c |] rest IH]; intros prefix name Hin.
  - contradiction.
  - cbn [digest_files map fst] in Hin. destruct Hin as [<- | Hin].
    + exists prefix. cbn [List.length]. split; [lia | reflexivity].
    + destruct (IH _ _ Hin) as (k & Hk & ->). exists k.
      cbn [List.length]. split; [lia | reflexivity].
  - cbn [digest_files] in Hin. destruct (IH _ _ Hin) as (k & Hk & ->).
    exists k. cbn [List.length]. split; [lia | reflexivity].
Qed.

Lemma digest_files_distinct (outcomes : list (option (Canvas Page))) :
  forall prefix : Z, NoDup (map fst (digest_files prefix outcomes)).
Proof.
  induction outcomes as [| [c |] rest IH]; intros prefix.
  - constructor.
  - cbn [digest_files map fst]. constructor; [| apply IH].
    intros Hin. apply digest_files_names in Hin.
    destruct Hin as (k & Hk & Heq).
    apply append_cancel_r, str_inj in Heq. lia.
  - cbn [digest_files]. apply IH.
Qed.

End FileFacts.

Lemma is_page_count_error (e : exception) :
  exception_eqb e PDFPageCountError = true -> e = PDFPageCountError.
Proof. destruct e; try discriminate. reflexivity. Qed.

Section OutcomeFacts.

Variable Page : Type.
Variable World : Type.
Variable lib : Library Page World.
Variable g : GitHelper.

(** PIL's [save] does not raise the exception of pdf2image. *)
Hypothesis save_is_not_pdf2image :
  forall (path : string) (canvas : Canvas Page) (w : World),
    fst (Image_save lib path canvas w) <> inl PDFPageCountError.

Lemma attempt_outcome (hash : string) (prefix : Z)
    (frames frames' : list (Canvas Page)) (st st' : state Page World) :
  attempt lib g hash prefix frames st = (inr frames', st') ->
  exists o : option (Canvas Page),
    frames' = (frames ++ accepted [o])%list
    /\ saved_images (log st')
       = (saved_images (log st) ++ digest_files prefix [o])%list.
Proof.
  unfold attempt, try_except, checkout, compile_pdf, render, bind, call,
    print, lift, ret.
  cbn [world log].
  destruct (Popen_communicate lib ["git"; "checkout"; "-f"; hash]
              (src_repository g) (world st)) as [[e | p1] w1]; cbn [world log].
  { destruct (exception_eqb e PDFPageCountError); [| discriminate].
    intros H. injection H as <- <-. exists None. cbn [accepted digest_files log].
    rewrite !saved_images_app. cbn. now rewrite !app_nil_r. }
  destruct (Popen_communicate lib (split_space (compilation_command g))
              (cwd g) w1) as [[e | p2] w2]; cbn [world log].
  { destruct (exception_eqb e PDFPageCountError); [| discriminate].
    intros H. injection H as <- <-. exists None. cbn [accepted digest_files log].
    rewrite !saved_images_app. cbn. now rewrite !app_nil_r. }
  destruct (convert_from_path lib (outpath g) (page_size (renderer g))
              (first_page (renderer g)) (last_page (renderer g)) w2)
    as [[e | pages] w3]; cbn [world log].
  { destruct (exception_eqb e PDFPageCountError); [| discriminate].
    intros H. injection H as <- <-. exists None. cbn [accepted digest_files log].
    rewrite !saved_images_app. cbn. now rewrite !app_nil_r. }
  destruct (_layout_pages (renderer g) (_create_canvas (renderer g)) pages)
    as [e | canvas]; cbn [world log].
  { destruct (exception_eqb e PDFPageCountError); [| discriminate].
    intros H. injection H as <- <-. exists None. cbn [accepted digest_files log].
    rewrite !saved_images_app. cbn. now rewrite !app_nil_r. }
  pose proof (save_is_not_pdf2image (str prefix ++ "_digest.png") canvas w3)
    as Hsave.
  destruct (Image_save lib (str prefix ++ "_digest.png") canvas w3)
    as [[e | []] w4]; cbn [world log fst] in *.
  { destruct (exception_eqb e PDFPageCountError) eqn:He; [| discriminate].
    apply is_page_count_error in He. subst e. now contradiction Hsave. }
  intros H. injection H as <- <-. exists (Some canvas).
  cbn [accepted digest_files log snd].
  rewrite !saved_images_app. cbn. now rewrite !app_nil_r.
Qed.

Lemma attempts_outcomes (hs : list string) :
  forall (prefix : Z) (frames frames' : list (Canvas Page)) (prefix' : Z)
         (st st' : state Page World),
    attempts lib g hs prefix frames st = (inr (frames', prefix'), st') ->
    exists outcomes : list (option (Canvas Page)),
      List.length outcomes = List.length hs
      /\ frames' = (frames ++ accepted outcomes)%list
      /\ saved_images (log st')
         = (saved_images (log st) ++ digest_files prefix outcomes)%list.
Proof.
  induction hs as [| h hs IH]; intros prefix frames frames' prefix' st st' H.
  - cbn in H. injection H as <- _ <-. exists [].
    cbn. now rewrite !app_nil_r.
  - cbn [attempts] in H. apply bind_inr_inv in H.
    destruct H as (fr & st1 & Hatt & Hrest).
    apply attempt_outcome in Hatt. destruct Hatt as (o & -> & Hlog1).
    apply IH in Hrest. destruct Hrest as (outcomes & Hlen & -> & Hlog).
    exists (o :: outcomes). split; [cbn; now rewrite Hlen |].
    split.
    + rewrite <- app_assoc. f_equal. now destruct o.
    + rewrite Hlog, Hlog1, <- app_assoc. f_equal. now destruct o.
Qed.

End OutcomeFacts.

Lemma collect_is_attempts (Page World : Type) (lib : Library Page World)
    (g : GitHelper) (start_hash end_hash : option string) (hs : list string)
    (st : state Page World) (w' : World) :
  traverse_commits lib (src_repository g) (world st) = (inr hs, w') ->
  collect_frames lib g start_hash end_hash st
  = bind (attempts lib g (window start_hash end_hash hs) 1 [])
      (fun fp =>
         ret (after_end end_hash (start_queue start_hash hs), fst fp, snd fp))
      {| world := w'; log := log st ++ [EvTraverse (src_repository g)] |}.
Proof.
  intros Htrav. unfold collect_frames.
  assert (Hhashes : hashes lib g st
                    = (inr hs, {| world := w';
                                  log := log st ++ [EvTraverse (src_repository g)] |})).
  { unfold hashes, call. now rewrite Htrav. }
  rewrite (bind_return _ _ _ Hhashes).
  exact (loop_is_attempts lib g end_hash (start_queue start_hash hs) [] 1 _).
Qed.

(** Files and frames of a run.  Suppose saving a PNG never raises the
    exception of pdf2image, and the repository reports the history [hs].
    When the loop of [run] returns, each revision of the window has an
    outcome, a canvas or nothing, such that the frames are the canvases, in
    the order of their revisions, and the PNG files saved during the run are
    these same canvases in the same order, the canvas of the [k]-th revision
    of the window under [str(k) + "_digest.png"]: a skipped revision leaves a
    gap in the numbers, and no two files of a run have the same name. *)
Theorem run_files_and_frames :
  forall (Page World : Type) (lib : Library Page World) (g : GitHelper)
         (start_hash end_hash : option string) (hs : list string)
         (st st' : state Page World) (w' : World)
         (hashes' : list string) (frames' : list (Canvas Page)) (prefix' : Z),
    (forall (path : string) (canvas : Canvas Page) (w : World),
        fst (Image_save lib path canvas w) <> inl PDFPageCountError) ->
    traverse_commits lib (src_repository g) (world st) = (inr hs, w') ->
    collect_frames lib g start_hash end_hash st
    = (inr (hashes', frames', prefix'), st') ->
    exists outcomes : list (option (Canvas Page)),
      List.length outcomes = List.length (window start_hash end_hash hs)
      /\ frames' = accepted outcomes
      /\ saved_images (log st')
         = (saved_images (log st) ++ digest_files 1 outcomes)%list
      /\ map snd (digest_files 1 outcomes) = frames'
      /\ NoDup (map fst (digest_files 1 outcomes))
      /\ (forall name : string,
            In name (map fst (digest_files 1 outcomes)) ->
            exists k : Z,
              1 <= k < prefix' /\ name = (str k ++ "_digest.png")%string).
Proof.
  intros Page World lib g start_hash end_hash hs st st' w' hashes' frames'
         prefix' Hsave Htrav Hret.
  rewrite (collect_is_attempts lib g start_hash end_hash st Htrav) in Hret.
  apply bind_inr_inv in Hret. destruct Hret as ([fr p] & st1 & Hatt & Hret).
  unfold ret in Hret. cbn [fst snd] in Hret. injection Hret as <- <- <- <-.
  pose proof (attempts_counter _ _ _ _ _ _ Hatt) as Hp.
  destruct (attempts_outcomes lib g Hsave _ _ _ _ Hatt) as (outcomes & Hlen & -> & Hlog).
  exists outcomes. cbn [app] in *.
  split; [exact Hlen |]. split; [reflexivity |]. split.
  - rewrite Hlog. cbn [log]. rewrite saved_images_app. cbn.
    now rewrite app_nil_r.
  - split; [symmetry; apply accepted_files |].
    split; [apply digest_files_distinct |].
    intros name Hin. apply digest_files_names in Hin.
    destruct Hin as (k & Hk & ->). exists k. split; [lia | reflexivity].
Qed.

(** The run of [abc] up to the end of its loop: two frames and two files. *)
Lemma run_files_and_frames_witness :
  exists outcomes : list (option (Canvas SimPage)),
    List.length outcomes = 3%nat
    /\ map fst (digest_files 1 outcomes) = ["1_digest.png"; "3_digest.png"].
Proof.
  destruct (collect_frames (sim_lib abc) sim_helper None None sim_start)
    as [[e | [[hashes' frames'] prefix']] st'] eqn:Hret.
  - vm_compute in Hret. discriminate Hret.
  - destruct (run_files_and_frames (sim_lib abc) sim_helper None None sim_start
                (hs := ["a"; "b"; "c"])
                (w' := {| head := None; written := [] |})
                ltac:(intros path canvas w; discriminate) eq_refl Hret)
      as (outcomes & Hlen & _ & Hlog & _).
    exists outcomes. split; [exact Hlen |].
    vm_compute in Hret. injection Hret as _ _ _ <-.
    cbn in Hlog. rewrite <- Hlog. reflexivity.
Defined.

(** The animation of a run.  Under the same two assumptions, when [run]
    with an animation path returns, the last thing it did is the one call
    that writes the animation, with a duration of 200 and a loop count of 0,
    and the images it handed over are the canvases of the PNG files saved
    during the run, first to last: the frames of the animation follow the
    order of the revisions, the skipped ones left out. *)
Theorem run_animation_order :
  forall (Page World : Type) (lib : Library Page World) (g : GitHelper)
         (start_hash end_hash : option string) (gif_path : string)
         (hs : list string) (st st' : state Page World) (w' : World),
    (forall (path : string) (canvas : Canvas Page) (w : World),
        fst (Image_save lib path canvas w) <> inl PDFPageCountError) ->
    traverse_commits lib (src_repository g) (world st) = (inr hs, w') ->
    run lib g start_hash end_hash (Some gif_path) st = (inr tt, st') ->
    exists (l : list (event Page)) (img : Canvas Page)
           (imgs : list (Canvas Page)),
      log st' = (l ++ [EvSaveGif gif_path img imgs 200 0])%list
      /\ map snd (saved_images l)
         = (map snd (saved_images (log st)) ++ img :: imgs)%list
      /\ (List.length (img :: imgs)
          <= List.length (window start_hash end_hash hs))%nat.
Proof.
  intros Page World lib g start_hash end_hash gif_path hs st st' w'
         Hsave Htrav Hrun.
  unfold run in Hrun. apply bind_inr_inv in Hrun.
  destruct Hrun as ([[hashes' frames'] prefix'] & st1 & Hcollect & Henc).
  cbn [fst snd] in Henc.
  pose proof Hcollect as Hret.
  rewrite (collect_is_attempts lib g start_hash end_hash st Htrav) in Hret.
  apply bind_inr_inv in Hret. destruct Hret as ([fr p] & st2 & Hatt & Hret).
  unfold ret in Hret. cbn [fst snd] in Hret. injection Hret as <- <- <- <-.
  destruct (attempts_outcomes lib g Hsave _ _ _ _ Hatt) as (outcomes & Hlen & -> & Hlog).
  cbn [app log] in Hlog, Henc.
  destruct (accepted outcomes) as [| img imgs] eqn:Hacc; [discriminate Henc |].
  cbn [encode] in Henc. unfold call in Henc.
  destruct (Image_save_gif lib gif_path img imgs 200 0 (world st2))
    as [[e | []] w2]; [discriminate Henc |].
  injection Henc as <-. exists (log st2), img, imgs.
  split; [reflexivity |]. split.
  - rewrite Hlog, saved_images_app. cbn [saved_images]. rewrite app_nil_r.
    rewrite map_app. f_equal.
    now rewrite <- (accepted_files 1 outcomes), Hacc.
  - rewrite <- Hlen, <- Hacc. clear.
    induction outcomes as [| [c |] rest IH]; cbn; lia.
Qed.

(** The run of [abc]: the animation holds the canvases of the two files. *)
Lemma run_animation_order_witness :
  exists (l : list (event SimPage)) (img : Canvas SimPage)
         (imgs : list (Canvas SimPage)),
    log (snd (run (sim_lib abc) sim_helper None None (Some "out.gif") sim_start))
    = (l ++ [EvSaveGif "out.gif" img imgs 200 0])%list
    /\ map snd (saved_images l) = img :: imgs.
Proof.
  destruct (run_animation_order (sim_lib abc) sim_helper None None "out.gif"
              sim_start (hs := ["a"; "b"; "c"])
              (st' := snd (run (sim_lib abc) sim_helper None None
                             (Some "out.gif") sim_start))
              (w' := {| head := None; written := [] |})
              ltac:(intros path canvas w; discriminate) eq_refl eq_refl)
    as (l & img & imgs & Hlog & Hsaved & _).
  exists l, img, imgs. split; [exact Hlog | exact Hsaved].
Defined.

(** ** When the animation is written *)

Section QuietFacts.

Variable Page : Type.
Variable World : Type.
Variable lib : Library Page World.

Lemma quiet_ret {A : Type} (a : A) : quiet (ret (Page := Page) (World := World) a).
Proof.
  intros st st' r H. injection H as _ <-. exists []. now rewrite app_nil_r.
Qed.

Lemma quiet_lift {A : Type} (x : result A) :
  quiet (lift (Page := Page) (World := World) x).
Proof.
  intros st st' r H. injection H as _ <-. exists []. now rewrite app_nil_r.
Qed.

Lemma quiet_print (v : printed) : quiet (print (Page := Page) (World := World) v).
Proof.
  intros st st' r H. injection H as _ <-. now exists [EvPrint v].
Qed.

Lemma quiet_call {A : Type} (ev : event Page)
    (f : World -> result A * World) :
  is_gif ev = false -> quiet (call ev f).
Proof.
  intros Hev st st' r H. unfold call in H.
  destruct (f (world st)) as [x w]. injection H as _ <-.
  exists [ev]. cbn. now rewrite Hev.
Qed.

Lemma quiet_bind {A B : Type} (m : M Page World A) (k : A -> M Page World B) :
  quiet m -> (forall a : A, quiet (k a)) -> quiet (bind m k).
Proof.
  intros Hm Hk st st' r H. unfold bind in H.
  destruct (m st) as [[e | a] st1] eqn:Hrun.
  - injection H as _ <-. exact (Hm _ _ _ Hrun).
  - destruct (Hm _ _ _ Hrun) as (d1 & Hl1 & Hq1).
    destruct (Hk a _ _ _ H) as (d2 & Hl2 & Hq2).
    exists (d1 ++ d2)%list. split.
    + now rewrite Hl2, Hl1, app_assoc.
    + now rewrite existsb_app, Hq1, Hq2.
Qed.

Lemma quiet_try {A : Type} (body : M Page World A) (exn : exception)
    (handler : M Page World A) :
  quiet body -> quiet handler -> quiet (try_except body exn handler).
Proof.
  intros Hb Hh st st' r H. unfold try_except in H.
  destruct (body st) as [[e | a] st1] eqn:Hrun.
  - destruct (exception_eqb e exn).
    + destruct (Hb _ _ _ Hrun) as (d1 & Hl1 & Hq1).
      destruct (Hh _ _ _ H) as (d2 & Hl2 & Hq2).
      exists (d1 ++ d2)%list. split.
      * now rewrite Hl2, Hl1, app_assoc.
      * now rewrite existsb_app, Hq1, Hq2.
    + injection H as _ <-. exact (Hb _ _ _ Hrun).
  - injection H as _ <-. exact (Hb _ _ _ Hrun).
Qed.

Lemma quiet_render (r : Renderer) (document prefix : string) :
  quiet (render lib r document prefix).
Proof.
  unfold render.
  apply quiet_bind; [now apply quiet_call | intros pages].
  apply quiet_bind; [apply quiet_lift | intros canvas].
  apply quiet_bind; [now apply quiet_call | intros _].
  apply quiet_bind; [apply quiet_print | intros _].
  apply quiet_ret.
Qed.

Lemma quiet_checkout (g : GitHelper) (hash : string) :
  quiet (checkout lib g hash).
Proof.
  unfold checkout.
  apply quiet_bind; [apply quiet_print | intros _].
  apply quiet_bind; [now apply quiet_call | intros p].
  apply quiet_print.
Qed.

Lemma quiet_compile_pdf (g : GitHelper) : quiet (compile_pdf lib g).
Proof.
  unfold compile_pdf.
  apply quiet_bind; [apply quiet_print | intros _].
  apply quiet_bind; [now apply quiet_call | intros p].
  apply quiet_ret.
Qed.

Lemma quiet_attempt (g : GitHelper) (hash : string) (prefix : Z)
    (frames : list (Canvas Page)) :
  quiet (attempt lib g hash prefix frames).
Proof.
  unfold attempt. apply quiet_try.
  - apply quiet_bind; [apply quiet_checkout | intros _].
    apply quiet_bind; [apply quiet_compile_pdf | intros _].
    apply quiet_bind; [apply quiet_render | intros pi].
    apply quiet_ret.
  - apply quiet_bind; [apply quiet_print | intros _]. apply quiet_ret.
Qed.

Lemma quiet_while (g : GitHelper) (end_hash : option string)
    (hashes : list string) :
  forall (stop : bool) (frames : list (Canvas Page)) (prefix : Z),
    quiet (while_not_stop lib g end_hash stop hashes frames prefix).
Proof.
  induction hashes as [| h rest IH]; intros stop frames prefix.
  - destruct stop; cbn [while_not_stop]; [apply quiet_ret |].
    intros st st' r H. injection H as _ <-. exists [].
    now rewrite app_nil_r.
  - destruct stop; cbn [while_not_stop]; [apply quiet_ret |].
    apply quiet_bind; [apply quiet_attempt | intros fr]. apply IH.
Qed.

Lemma quiet_collect_frames (g : GitHelper) (start_hash end_hash : option string) :
  quiet (collect_frames lib g start_hash end_hash).
Proof.
  unfold collect_frames.
  apply quiet_bind; [now apply quiet_call | intros hs]. apply quiet_while.
Qed.

End QuietFacts.

(** [run] writes the animation at most once, and last.  Whatever the
    libraries do and however [run] ends, the events it adds to the log hold
    no call that writes an animation when no path is given; with a path they
    hold at most one, as the very last event, and only when the loop has
    returned with at least one frame: these frames are what the call is
    given, with a duration of 200 and a loop count of 0.  An exception that
    leaves the loop thus leaves no animation behind, whatever frames had been
    collected. *)
Theorem animation_written_last :
  forall (Page World : Type) (lib : Library Page World) (g : GitHelper)
         (start_hash end_hash gif_path : option string)
         (st : state Page World),
    exists delta : list (event Page),
      log (snd (run lib g start_hash end_hash gif_path st))
      = (log st ++ delta)%list
      /\ match gif_path with
         | None => existsb is_gif delta = false
         | Some path =>
             existsb is_gif delta = false
             \/ exists (before : list (event Page)) (hashes' : list string)
                       (img : Canvas Page) (imgs : list (Canvas Page))
                       (prefix' : Z),
                  fst (collect_frames lib g start_hash end_hash st)
                  = inr (hashes', img :: imgs, prefix')
                  /\ delta = (before ++ [EvSaveGif path img imgs 200 0])%list
                  /\ existsb is_gif before = false
         end.
Proof.
  intros Page World lib g start_hash end_hash gif_path st.
  pose proof (quiet_collect_frames lib g start_hash end_hash) as Hquiet.
  unfold quiet in Hquiet. unfold run, bind.
  destruct (collect_frames lib g start_hash end_hash st)
    as [[e | [[hashes' frames] prefix']] st1] eqn:Hc;
    destruct (Hquiet _ _ _ Hc) as (d1 & Hl1 & Hq1); cbn [fst snd].
  - exists d1. split; [exact Hl1 |]. destruct gif_path; auto.
  - destruct gif_path as [path |]; cbn [encode].
    + destruct frames as [| img imgs].
      * exists d1. split; [exact Hl1 | now left].
      * unfold call.
        destruct (Image_save_gif lib path img imgs 200 0 (world st1))
          as [x w2]. cbn [snd log].
        exists (d1 ++ [EvSaveGif path img imgs 200 0])%list.
        split; [now rewrite Hl1, app_assoc |].
        right. exists d1, hashes', img, imgs, prefix'. auto.
    + exists d1. split; [exact Hl1 | exact Hq1].
Qed.

(** ** What a run calls *)

Section EmitFacts.

Variable Page : Type.
Variable World : Type.
Variable lib : Library Page World.
Variable P : event Page -> Prop.

Lemma emits_ret {A : Type} (a : A) :
  emits P (ret (Page := Page) (World := World) a).
Proof.
  intros st st' r H. injection H as _ <-. exists []. now rewrite app_nil_r.
Qed.

Lemma emits_raise {A : Type} (e : exception) :
  emits P (raise (Page := Page) (World := World) (A := A) e).
Proof.
  intros st st' r H. injection H as _ <-. exists []. now rewrite app_nil_r.
Qed.

Lemma emits_lift {A : Type} (x : result A) :
  emits P (lift (Page := Page) (World := World) x).
Proof.
  intros st st' r H. injection H as _ <-. exists []. now rewrite app_nil_r.
Qed.

Lemma emits_print (v : printed) :
  P (EvPrint v) -> emits P (print (Page := Page) (World := World) v).
Proof.
  intros Hv st st' r H. injection H as _ <-. exists [EvPrint v]. auto.
Qed.

Lemma emits_call {A : Type} (ev : event Page)
    (f : World -> result A * World) :
  P ev -> emits P (call ev f).
Proof.
  intros Hev st st' r H. unfold call in H.
  destruct (f (world st)) as [x w]. injection H as _ <-.
  exists [ev]. auto.
Qed.

Lemma emits_bind {A B : Type} (m : M Page World A) (k : A -> M Page World B) :
  emits P m -> (forall a : A, emits P (k a)) -> emits P (bind m k).
Proof.
  intros Hm Hk st st' r H. unfold bind in H.
  destruct (m st) as [[e | a] st1] eqn:Hrun.
  - injection H as _ <-. exact (Hm _ _ _ Hrun).
  - destruct (Hm _ _ _ Hrun) as (d1 & Hl1 & Hq1).
    destruct (Hk a _ _ _ H) as (d2 & Hl2 & Hq2).
    exists (d1 ++ d2)%list. split.
    + now rewrite Hl2, Hl1, app_assoc.
    + apply Forall_app. now split.
Qed.

Lemma emits_try {A : Type} (body : M Page World A) (exn : exception)
    (handler : M Page World A) :
  emits P body -> emits P handler -> emits P (try_except body exn handler).
Proof.
  intros Hb Hh st st' r H. unfold try_except in H.
  destruct (body st) as [[e | a] st1] eqn:Hrun.
  - destruct (exception_eqb e exn).
    + destruct (Hb _ _ _ Hrun) as (d1 & Hl1 & Hq1).
      destruct (Hh _ _ _ H) as (d2 & Hl2 & Hq2).
      exists (d1 ++ d2)%list. split.
      * now rewrite Hl2, Hl1, app_assoc.
      * apply Forall_app. now split.
    + injection H as _ <-. exact (Hb _ _ _ Hrun).
  - injection H as _ <-. exact (Hb _ _ _ Hrun).
Qed.

End EmitFacts.

(** What [run] calls.  Whatever the libraries do and however [run] ends,
    every library call it makes is one of these: the traversal of the
    repository; [git checkout -f <hash>] run in the repository, so every
    checkout is forced; the build command, cut at its spaces, run in the
    working directory of the helper; the rasterization of the output path at
    the page size and page range of the renderer; the saving of a PNG named
    [<integer>_digest.png]; and, only if an animation path is given, the
    saving of the animation at that path with a duration of 200 and a loop
    count of 0. *)
Theorem run_calls :
  forall (Page World : Type) (lib : Library Page World) (g : GitHelper)
         (start_hash end_hash gif_path : option string)
         (st : state Page World),
    exists delta : list (event Page),
      log (snd (run lib g start_hash end_hash gif_path st))
      = (log st ++ delta)%list
      /\ Forall (run_event g gif_path) delta.
Proof.
  intros Page World lib g start_hash end_hash gif_path st.
  set (P := run_event (Page := Page) g gif_path).
  assert (Hattempt : forall (hash : string) (prefix : Z)
                            (frames : list (Canvas Page)),
             emits P (attempt lib g hash prefix frames)).
  { intros hash prefix frames. unfold attempt. apply emits_try.
    - apply emits_bind; [| intros _].
      { unfold checkout.
        apply emits_bind; [now apply emits_print | intros _].
        apply emits_bind; [| intros p; now apply emits_print].
        apply emits_call. left. now exists hash. }
      apply emits_bind; [| intros _].
      { unfold compile_pdf.
        apply emits_bind; [now apply emits_print | intros _].
        apply emits_bind; [| intros p; apply emits_ret].
        apply emits_call. right. now split. }
      apply emits_bind; [| intros pi; apply emits_ret].
      unfold render.
      apply emits_bind; [apply emits_call; cbn; auto | intros pages].
      apply emits_bind; [apply emits_lift | intros canvas].
      apply emits_bind; [apply emits_call; now exists prefix | intros _].
      apply emits_bind; [now apply emits_print | intros _].
      apply emits_ret.
    - apply emits_bind; [now apply emits_print | intros _]. apply emits_ret. }
  assert (Hwhile : forall (queue : list string) (stop : bool)
                          (frames : list (Canvas Page)) (prefix : Z),
             emits P (while_not_stop lib g end_hash stop queue frames prefix)).
  { induction queue as [| h rest IH]; intros stop frames prefix;
      destruct stop; cbn [while_not_stop];
      try apply emits_ret; try apply emits_raise.
    apply emits_bind; [apply Hattempt | intros fr]. apply IH. }
  assert (Hrun : emits P (run lib g start_hash end_hash gif_path)).
  { unfold run. apply emits_bind.
    - unfold collect_frames, hashes.
      apply emits_bind; [now apply emits_call | intros hs]. apply Hwhile.
    - intros [[hashes' frames] prefix']. cbn [fst snd].
      destruct gif_path as [path |]; cbn [encode]; [| apply emits_ret].
      destruct frames as [| img imgs]; [apply emits_raise |].
      apply emits_call. cbn. auto. }
  destruct (run lib g start_hash end_hash gif_path st) as [r st'] eqn:Hres.
  exact (Hrun _ _ _ Hres).
Qed.
